(** * netifmon: the change-detection engine of [main.py]

    A shallow embedding of the refresh cycle ([Metrics]), of the differs
    ([Differ], [ChangeGaugeDiffer], [ipv6_prefix]), of the persisted state
    file and of the self-rescheduling refresh timer, followed by the
    properties of the program that its specification states. *)

From stdpp Require Import base option list gmap strings pretty.
From Stdlib Require Import ZArith Lia Ascii.

Local Open Scope Z_scope.

(** ** Python results *)

(** The exceptions the modelled code can meet. *)
Inductive exn :=
  | ValueError        (* netifaces.ifaddresses on an unknown interface name *)
  | AddrFormatError   (* netaddr refuses the text of an address or prefix *)
  | OSError           (* the operating system refuses a query or a write *)
  | RuntimeError      (* threading: a thread object started twice *)
  | TypeError.        (* a call with the wrong number of arguments *)

(** The outcome of evaluating a Python expression: a value or a raised
    exception. *)
Inductive result (A : Type) :=
  | Ok (a : A)
  | Raise (e : exn).
Arguments Ok {A} a.
Arguments Raise {A} e.

#[global] Instance exn_eq_dec : EqDecision exn.
Proof. solve_decision. Defined.

#[global] Instance result_eq_dec {A} `{EqDecision A} : EqDecision (result A).
Proof. solve_decision. Defined.

#[global] Instance result_ret : MRet result := λ A a, Ok a.
#[global] Instance result_bind : MBind result := λ A B f r,
  match r with
  | Ok a => f a
  | Raise e => Raise e
  end.

(** ** netaddr: the text of an address and the network it lies in *)

Module netaddr.

Definition dec_digit (c : ascii) : option Z :=
  let n := Z.of_N (N_of_ascii c) in
  if (48 <=? n) && (n <=? 57) then Some (n - 48) else None.

Definition hex_digit (c : ascii) : option Z :=
  let n := Z.of_N (N_of_ascii c) in
  if (48 <=? n) && (n <=? 57) then Some (n - 48)
  else if (97 <=? n) && (n <=? 102) then Some (n - 87)
  else if (65 <=? n) && (n <=? 70) then Some (n - 55)
  else None.

Definition digits_to_Z (base : Z) (ds : list Z) : Z :=
  foldl (λ acc d, acc * base + d) 0 ds.

(** [str.split(sep)] on the characters of a text. *)
Fixpoint split_on (sep : ascii) (cs : list ascii) : list (list ascii) :=
  match cs with
  | [] => [[]]
  | c :: cs' =>
      if decide (c = sep) then [] :: split_on sep cs'
      else match split_on sep cs' with
           | [] => [[c]]
           | g :: gs => (c :: g) :: gs
           end
  end.

(** One decimal octet of a dotted quad: one to three digits, no leading
    zero before another digit, at most 255. *)
Definition dec_octet (g : list ascii) : option Z :=
  match g with
  | [] => None
  | c :: rest =>
      if decide (3 < length g)%nat then None
      else if decide (c = "0"%char ∧ rest ≠ []) then None
      else
        ds ← mapM dec_digit g;
        let v := digits_to_Z 10 ds in
        if v <=? 255 then Some v else None
  end.

(** inet_pton(AF_INET, text). *)
Definition ipv4_chars_to_int (cs : list ascii) : option Z :=
  match split_on "."%char cs with
  | [a; b; c; d] => digits_to_Z 256 <$> mapM dec_octet [a; b; c; d]
  | _ => None
  end.

(** One group of an IPv6 text: one to four hexadecimal digits. *)
Definition hex_group (g : list ascii) : option Z :=
  match g with
  | [] => None
  | _ => if decide (4 < length g)%nat then None
         else digits_to_Z 16 <$> mapM hex_digit g
  end.

(** The last part of an IPv6 text is a group or a dotted quad, which
    stands for two groups. *)
Definition last_groups (g : list ascii) : option (list Z) :=
  if decide ("."%char ∈ g) then
    v ← ipv4_chars_to_int g; Some [v / 65536; v mod 65536]
  else
    x ← hex_group g; Some [x].

Fixpoint groups (ps : list (list ascii)) : option (list Z) :=
  match ps with
  | [] => Some []
  | [p] => last_groups p
  | p :: ps' => x ← hex_group p; xs ← groups ps'; Some (x :: xs)
  end.

(** The parts before and after the first "::" of a text. *)
Fixpoint split_double_colon (cs : list ascii)
    : option (list ascii * list ascii) :=
  match cs with
  | [] => None
  | c :: cs' =>
      match cs' with
      | c' :: r =>
          if decide (c = ":"%char ∧ c' = ":"%char) then Some ([], r)
          else '(l, r') ← split_double_colon cs'; Some (c :: l, r')
      | [] => None
      end
  end.

Definition side_groups (cs : list ascii) : option (list Z) :=
  match cs with
  | [] => Some []
  | _ => groups (split_on ":"%char cs)
  end.

(** inet_pton(AF_INET6, text): eight groups of sixteen bits, or fewer
    around one "::" that stands for the missing groups (at least one). *)
Definition ipv6_chars_to_int (cs : list ascii) : option Z :=
  match split_double_colon cs with
  | Some (l, r) =>
      gl ← mapM hex_group (match l with [] => [] | _ => split_on ":"%char l end);
      gr ← side_groups r;
      if decide (length gl + length gr ≤ 7)%nat then
        Some (digits_to_Z 65536
                (gl ++ replicate (8 - length gl - length gr) 0 ++ gr))
      else None
  | None =>
      gs ← groups (split_on ":"%char cs);
      if decide (length gs = 8%nat) then Some (digits_to_Z 65536 gs)
      else None
  end.

Definition width (version : Z) : Z := if version =? 4 then 32 else 128.
Definition max_int (version : Z) : Z := 2 ^ width version - 1.

Definition str_to_int (version : Z) (addr : string) : option Z :=
  if version =? 4 then ipv4_chars_to_int (String.list_ascii_of_string addr)
  else ipv6_chars_to_int (String.list_ascii_of_string addr).

(** An [IPAddress] is compared by its version and its integer value. *)
Record IPAddress := mkIPAddress { version : Z; value : Z }.

#[global] Instance IPAddress_eq_dec : EqDecision IPAddress.
Proof. solve_decision. Defined.

(** An [IPNetwork] keeps the address as given and the prefix length. *)
Record IPNetwork :=
  mkIPNetwork { net_version : Z; net_value : Z; prefixlen : Z }.

Definition parse_ip_network (ver : Z) (addr : string) (prefix : Z)
    : option IPNetwork :=
  v ← str_to_int ver addr;
  if decide (0 ≤ prefix ≤ width ver) then Some (mkIPNetwork ver v prefix)
  else None.

(** [IPNetwork(f"{addr}/{prefix}")]: the library splits the text at its
    slash again, reads the address as IPv4 and, when that is refused, as
    IPv6; here the two parts are passed as they are. *)
Definition IPNetwork_of (addr : string) (prefix : Z) : result IPNetwork :=
  match parse_ip_network 4 addr prefix with
  | Some n => Ok n
  | None =>
      match parse_ip_network 6 addr prefix with
      | Some n => Ok n
      | None => Raise AddrFormatError
      end
  end.

Definition hostmask_int (n : IPNetwork) : Z :=
  Z.shiftl 1 (width (net_version n) - prefixlen n) - 1.

(** [IPNetwork.network]: the address with its host bits cleared. *)
Definition network (n : IPNetwork) : IPAddress :=
  mkIPAddress (net_version n)
    (Z.land (net_value n)
       (Z.lxor (max_int (net_version n)) (hostmask_int n))).

End netaddr.

(** ** Snapshots *)

(** A key of a Python dict of this program: the address families that
    netifaces reports are integers, the keys that JSON gives back are
    texts. *)
Inductive PyKey :=
  | KInt (n : Z)
  | KStr (s : string).

#[global] Instance PyKey_eq_dec : EqDecision PyKey.
Proof. solve_decision. Defined.

#[global] Instance PyKey_countable : Countable PyKey :=
  inj_countable'
    (λ k, match k with KInt n => inl n | KStr s => inr s end)
    (λ x, match x with inl n => KInt n | inr s => KStr s end)
    (λ k, match k with KInt _ | KStr _ => eq_refl end).

(** One address entry ("addr", "netmask", ...), the addresses of one
    interface by address family, and the snapshot of all interfaces. *)
Abbreviation Entry := (gmap string string).
Abbreviation AddressRecord := (gmap PyKey (list Entry)).
Abbreviation Snapshot := (gmap string AddressRecord).

(** ** netifaces: what the operating system answers during one cycle *)

Inductive WriteOutcome :=
  | Written                 (* the file is opened and the text written *)
  | OpenRaises (e : exn)    (* open(path, "w+") is refused *)
  | DumpRaises (e : exn).   (* the file is opened (truncated), the write fails *)

Module netifaces.

(** socket.AF_INET6 (its value on Linux). *)
Definition AF_INET6 : Z := 10.
Definition AF_INET : Z := 2.

Record World := mkWorld {
  interfaces : result (list string);
  ifaddresses : string → result AddressRecord;
  write : WriteOutcome;
}.

End netifaces.

(** ** json: the persisted document *)

Abbreviation JsonRecord := (gmap string (list Entry)).
Abbreviation JsonSnapshot := (gmap string JsonRecord).

Module json.

(** The key of a JSON object is a text: an integer key is written as its
    decimal numeral. *)
Definition key_text (k : PyKey) : string :=
  match k with
  | KInt n => pretty n
  | KStr s => s
  end.

Definition dump_record (r : AddressRecord) : JsonRecord :=
  kmap (M1 := gmap PyKey) (M2 := gmap string) key_text r.

(** json.dump: the document written for a snapshot. *)
Definition dump (s : Snapshot) : JsonSnapshot := dump_record <$> s.

Definition load_record (r : JsonRecord) : AddressRecord :=
  kmap (M1 := gmap string) (M2 := gmap PyKey) KStr r.

(** json.load: the Python value read from a document. *)
Definition load (d : JsonSnapshot) : Snapshot := load_record <$> d.

End json.

(** What the file at a path holds: text that json.load refuses
    (JSONDecodeError) or the document of a snapshot. *)
Inductive FileContent :=
  | Unparseable
  | Json (doc : JsonSnapshot).

(** ** The process state around the [Metrics] object *)

Inductive LogMsg :=
  | ReadingPersisted (path : string)
  | NoPersisted (path : string)
  | FailedParse (path : string)
  | RefreshingState
  | RunningDiffer (name : string)
  | RanDiffer (name : string) (diff : Z)
  | InterruptingTimer
  | RefreshingMetrics
  | CannotRefresh
  | StartingTimer
  | CannotStartTimer
  | StartingLoop.

#[global] Instance LogMsg_eq_dec : EqDecision LogMsg.
Proof. solve_decision. Defined.

(** The gauges of the metrics registry by name, the files by path, and the
    lines logged so far (oldest first). *)
Record Env := mkEnv {
  gauges : gmap string Z;
  files : gmap string FileContent;
  logged : list LogMsg;
}.

(** ** A state and exception monad *)

(** A computation over a state [S]: the state it leaves and its outcome; the
    state changes made before an exception is raised stay. *)
Record M (S A : Type) := mkM { runM : S → S * result A }.
Arguments mkM {S A} _.
Arguments runM {S A} _ _.

#[global] Instance M_ret {S} : MRet (M S) := λ A a, mkM (λ s, (s, Ok a)).
#[global] Instance M_bind {S} : MBind (M S) := λ A B f m,
  mkM (λ s,
    match runM m s with
    | (s', Ok a) => runM (f a) s'
    | (s', Raise e) => (s', Raise e)
    end).

Definition raise {S A} (e : exn) : M S A := mkM (λ s, (s, Raise e)).
Definition gets {S A} (f : S → A) : M S A := mkM (λ s, (s, Ok (f s))).
Definition modify {S} (f : S → S) : M S unit := mkM (λ s, (f s, Ok ())).
Definition lift {S A} (r : result A) : M S A := mkM (λ s, (s, r)).

(** for x in xs: body(x), threading an accumulator. *)
Fixpoint for_each {S A B} (body : B → A → M S B) (acc : B) (xs : list A)
    : M S B :=
  match xs with
  | [] => mret acc
  | x :: xs' => acc' ← body acc x; for_each body acc' xs'
  end.

Definition log (msg : LogMsg) : M Env unit :=
  modify (λ e, mkEnv (gauges e) (files e) (logged e ++ [msg])).

(** ** The helpers of the module *)

(** [ifirst(predicate, iterator)]: at most the first item that passes. *)
Definition ifirst {A} (predicate : A → bool) (iterator : list A) : list A :=
  take 1 (List.filter predicate iterator).

(** [the(iterator)]: the first item of a generator, or None when it yields
    nothing. The generator is lazy: an item is a computation that is only
    run when it is pulled, and only the first one is. *)
Definition the {A} (iterator : list (result A)) : result (option A) :=
  match take 1 iterator with
  | r :: _ => a ← r; Ok (Some a)
  | [] => Ok None
  end.

(** ** Differs *)

Module Differ.

(** The interface of a differ: its name, the value it extracts from a
    snapshot and the comparison of two extracted values. *)
Record t := mk {
  V : Type;
  name : string;
  get : option Snapshot → result (option V);
  diff : option V → option V → M Env Z;
}.

End Differ.

Module ChangeGaugeDiffer.

(** [Gauge(name, description)]: a new gauge at 0; the registry refuses a
    name it already has. *)
Definition Gauge (gauge_name : string) : M Env unit :=
  gs ← gets gauges;
  match gs !! gauge_name with
  | Some _ => raise ValueError
  | None => modify (λ e, mkEnv (<[gauge_name := 0]> (gauges e)) (files e) (logged e))
  end.

Definition gauge_set (gauge_name : string) (v : Z) : M Env unit :=
  modify (λ e, mkEnv (<[gauge_name := v]> (gauges e)) (files e) (logged e)).

(** [__init__]: the name of the gauge, once the gauge is registered. *)
Definition init (gauge_name : string) : M Env string :=
  let gauge_name := gauge_name +:+ "_changed" in
  Gauge gauge_name;;
  mret gauge_name.

(** [changed(old, new)]: old != new. *)
Definition changed {V} `{EqDecision V} (old new : option V) : bool :=
  bool_decide (old ≠ new).

Definition diff {V} `{EqDecision V} (gauge_name : string)
    (old new : option V) : M Env Z :=
  let changed := if changed old new then 1 else 0 in
  gauge_set gauge_name changed;;
  mret changed.

End ChangeGaugeDiffer.

Module ipv6_prefix.

Definition name : string := "ipv6_prefix".

(** The items of 0 or 1 element that the clauses of the generator
    iterate over. *)
Definition if_not_None {A} (x : option A) : list A := option_list x.
Definition if_truthy {A} (falsy : A) `{EqDecision A} (x : option A) : list A :=
  filter (λ a, a ≠ falsy) (option_list x).

Definition get (interface : string) (prefix_length : Z)
    (interfaces : option Snapshot) : result (option netaddr.IPAddress) :=
  the (
    interfaces ← if_not_None interfaces;
    interface ← if_truthy ∅ (interfaces !! interface);
    addresses ← if_truthy [] (interface !! KInt netifaces.AF_INET6);
    first_address ← take 1 addresses;
    addr ← if_truthy "" (first_address !! "addr");
    [ n ← netaddr.IPNetwork_of addr prefix_length; Ok (netaddr.network n) ]
  ).

Definition init (interface : string) (prefix_length : Z) : M Env Differ.t :=
  let gauge_name := name +:+ "_" +:+ interface +:+ "_" +:+ pretty prefix_length in
  gauge_name ← ChangeGaugeDiffer.init gauge_name;
  mret (Differ.mk netaddr.IPAddress name
          (get interface prefix_length)
          (ChangeGaugeDiffer.diff gauge_name)).

End ipv6_prefix.

(** ** The state store *)

Module MetricsState.

Record t := mk {
  old : option Snapshot;
  new : option Snapshot;
  diff : gmap string Z;
}.

(** [MetricsState()]. *)
Definition init : t := mk None None ∅.

End MetricsState.

Module Metrics.

Record t := mk {
  polling_interval : Z;
  interface : string;
  prefix_length : Z;
  file_path : string;
  state : MetricsState.t;
  differs : list Differ.t;
}.

Definition set_state (st : MetricsState.t) (self : t) : t :=
  mk (polling_interval self) (interface self) (prefix_length self)
     (file_path self) st (differs self).

(** The memory a method of the object works on: the object itself and
    the process state around it. *)
Record Heap := mkHeap { self : t; env : Env }.

(** A computation on the process state, run from a method. *)
Definition in_env {A} (m : M Env A) : M Heap A :=
  mkM (λ h, let '(e, r) := runM m (env h) in (mkHeap (self h) e, r)).

(** [Metrics(polling_interval, interface, prefix_length, file_path)]. *)
Definition init (polling_interval : Z) (interface : string)
    (prefix_length : Z) (file_path : string) : M Env t :=
  let state := MetricsState.init in
  differ ← ipv6_prefix.init interface prefix_length;
  let self := mk polling_interval interface prefix_length file_path
                state [differ] in
  if decide (file_path ≠ "") then
    log (ReadingPersisted file_path);;
    fs ← gets files;
    match fs !! file_path with
    | None =>
        log (NoPersisted file_path);; mret self
    | Some Unparseable =>
        log (FailedParse file_path);; mret self
    | Some (Json doc) =>
        let file_data := json.load doc in
        if decide (file_data ≠ ∅) then
          mret (set_state
                  (MetricsState.mk (Some file_data) (Some file_data)
                     (MetricsState.diff state))
                  self)
        else mret self
    end
  else mret self.

(** {key: value(key) for key in keys}: a later key replaces an equal
    earlier one. *)
Fixpoint dict_comprehension {V} (value : string → result V)
    (keys : list string) (acc : gmap string V) : result (gmap string V) :=
  match keys with
  | [] => Ok acc
  | key :: keys' =>
      v ← value key;
      dict_comprehension value keys' (<[key := v]> acc)
  end.

(** with open(path, "w+") as file: json.dump(data, file). *)
Definition save (w : netifaces.World) (path : string) (data : Snapshot)
    : M Env unit :=
  let put c := modify (λ e, mkEnv (gauges e) (<[path := c]> (files e)) (logged e)) in
  match netifaces.write w with
  | OpenRaises e => raise e
  | DumpRaises e => put Unparseable;; raise e
  | Written => put (Json (json.dump data))
  end.

(** One pass of the loop over the differs. *)
Definition run_differ (old_snapshot new_snapshot : option Snapshot)
    (diffs : gmap string Z) (differ : Differ.t) : M Heap (gmap string Z) :=
  in_env (log (RunningDiffer (Differ.name differ)));;
  old ← lift (Differ.get differ old_snapshot);
  new ← lift (Differ.get differ new_snapshot);
  diff ← in_env (Differ.diff differ old new);
  let diffs := <[Differ.name differ := diff]> diffs in
  in_env (log (RanDiffer (Differ.name differ) diff));;
  mret diffs.

(** [Metrics.refresh], in the world [w] of this cycle. *)
Definition refresh (w : netifaces.World) : M Heap unit :=
  in_env (log RefreshingState);;
  self ← gets self;
  let new_state_old := MetricsState.new (state self) in
  names ← lift (netifaces.interfaces w);
  new ← lift (dict_comprehension
                (λ interface, netifaces.ifaddresses w (Metrics.interface self))
                names ∅);
  let new_state_new := Some new in
  new_state_diff ← for_each (run_differ new_state_old new_state_new) ∅
                     (differs self);
  (if decide (file_path self ≠ "") then in_env (save w (file_path self) new)
   else mret ());;
  let new_state := MetricsState.mk new_state_old new_state_new new_state_diff in
  modify (λ h, mkHeap (set_state new_state (Metrics.self h)) (env h)).

(** The snapshot the comprehension of [refresh] builds in the world [w]
    for the configured interface name. *)
Definition captured (configured : string) (w : netifaces.World)
    : result Snapshot :=
  names ← netifaces.interfaces w;
  dict_comprehension (λ interface, netifaces.ifaddresses w configured)
    names ∅.

(** One call of [refresh] after the other, one world per call; a call
    that raises ends the sequence. *)
Fixpoint refreshes (ws : list netifaces.World) : M Heap unit :=
  match ws with
  | [] => mret ()
  | w :: ws' => refresh w;; refreshes ws'
  end.

End Metrics.

(** ** The refresh loop *)

Module threading.

(** The function a timer calls when it fires. *)
Inductive Target :=
  | Lambda      (* lambda _: None, called without an argument *)
  | Refresh.    (* the function [refresh] of the module *)

(** Where the thread of a timer stands: not started, waiting for its
    interval, calling its function, or over. *)
Inductive Phase := Created | Waiting | Running | Done.

(** [threading.Timer]; [finished] is the event that [cancel] sets and that
    the thread reads once its wait is over. *)
Record Timer := mkTimer {
  interval : Z;
  function : Target;
  finished : bool;
  phase : Phase;
}.

#[global] Instance Phase_eq_dec : EqDecision Phase.
Proof. solve_decision. Defined.

Definition set_finished (tm : Timer) : Timer :=
  mkTimer (interval tm) (function tm) true (phase tm).
Definition set_phase (ph : Phase) (tm : Timer) : Timer :=
  mkTimer (interval tm) (function tm) (finished tm) ph.

End threading.

(** The globals of the module: [metrics], the process state, and [timer],
    a reference into the store of the timer objects created so far. *)
Record Process := mkProcess {
  metrics : option Metrics.t;
  penv : Env;
  timer : nat;
  timers : list threading.Timer;
}.

(** The module as loaded: no metrics object, and the placeholder timer
    [threading.Timer(0, lambda _: None, ())]. *)
Definition boot (e : Env) : Process :=
  mkProcess None e 0 [threading.mkTimer 0 threading.Lambda false threading.Created].

Definition in_penv {A} (m : M Env A) : M Process A :=
  mkM (λ p, let '(e, r) := runM m (penv p) in
            (mkProcess (metrics p) e (timer p) (timers p), r)).

Definition update_timer (t : nat) (f : threading.Timer → threading.Timer)
    : M Process unit :=
  modify (λ p, mkProcess (metrics p) (penv p) (timer p)
                 (alter f t (timers p))).

(** [timer.cancel()]. *)
Definition cancel (t : nat) : M Process unit :=
  update_timer t threading.set_finished.

(** [timer.start()]: a thread starts once. *)
Definition start (t : nat) : M Process unit :=
  ts ← gets timers;
  match threading.phase <$> ts !! t with
  | Some threading.Created => update_timer t (threading.set_phase threading.Waiting)
  | _ => raise RuntimeError
  end.

Definition interrupt : M Process unit :=
  in_penv (log InterruptingTimer);;
  t ← gets timer;
  cancel t.

Definition start_timer : M Process unit :=
  m ← gets metrics;
  match m with
  | Some m =>
      in_penv (log StartingTimer);;
      modify (λ p, mkProcess (metrics p) (penv p) (length (timers p))
                (timers p ++ [threading.mkTimer (Metrics.polling_interval m)
                                threading.Refresh false threading.Created]))
  | None =>
      in_penv (log CannotStartTimer)
  end;;
  t ← gets timer;
  start t.

(** [metrics.refresh()] on the global object. *)
Definition metrics_refresh (m : Metrics.t) (w : netifaces.World)
    : M Process unit :=
  mkM (λ p,
    let '(h, r) := runM (Metrics.refresh w) (Metrics.mkHeap m (penv p)) in
    (mkProcess (Some (Metrics.self h)) (Metrics.env h) (timer p) (timers p), r)).

(** The function [refresh] of the module. *)
Definition refresh (w : netifaces.World) : M Process unit :=
  m ← gets metrics;
  match m with
  | Some m => in_penv (log RefreshingMetrics);; metrics_refresh m w
  | None => in_penv (log CannotRefresh)
  end;;
  start_timer.

Definition start_refresh_loop : M Process unit :=
  in_penv (log StartingLoop);;
  start_timer.

(** [main] with an interface name given: the metrics object is built and
    the loop started. *)
Definition main (polling_interval : Z) (interface : string)
    (prefix_length : Z) (file : string) : M Process unit :=
  if decide (interface ≠ "") then
    m ← in_penv (Metrics.init polling_interval interface prefix_length file);
    modify (λ p, mkProcess (Some m) (penv p) (timer p) (timers p));;
    start_refresh_loop
  else mret ().

(** What happens next in the process: the interpreter runs [interrupt], the
    wait of timer [t] is over, or the function that timer [t] is calling
    runs to its end in the world [w]. *)
Inductive Event :=
  | Interrupt
  | Fire (t : nat)
  | Return (t : nat) (w : netifaces.World).

Definition exec (m : M Process unit) (p : Process) : Process := fst (runM m p).

(** [Timer.run] after the wait: the function is called unless the event is
    set. *)
Definition fire (t : nat) (p : Process) : option Process :=
  tm ← timers p !! t;
  if decide (threading.phase tm = threading.Waiting) then
    Some (exec (update_timer t (threading.set_phase
                  (if threading.finished tm then threading.Done
                   else threading.Running))) p)
  else None.

(** The call of the function of timer [t], then [self.finished.set()]; an
    exception ends the thread. *)
Definition return_ (t : nat) (w : netifaces.World) (p : Process)
    : option Process :=
  tm ← timers p !! t;
  if decide (threading.phase tm = threading.Running) then
    let call := match threading.function tm with
                | threading.Refresh => refresh w
                | threading.Lambda => raise TypeError
                end in
    Some (exec (update_timer t (threading.set_phase threading.Done))
            (exec (call;; cancel t) p))
  else None.

Definition step (ev : Event) (p : Process) : option Process :=
  match ev with
  | Interrupt => Some (exec interrupt p)
  | Fire t => fire t p
  | Return t w => return_ t w p
  end.

Fixpoint run (evs : list Event) (p : Process) : option Process :=
  match evs with
  | [] => Some p
  | ev :: evs' => p' ← step ev p; run evs' p'
  end.

(** The cycles begun so far, the timers whose function is being called and
    the timers that will call their function when their wait is over. *)
Definition cycles (p : Process) : nat :=
  length (filter (λ msg, msg = RefreshingMetrics) (logged (penv p))).

Definition where_timers (P : threading.Timer → bool) (p : Process) : list nat :=
  fst <$> filter (λ it, P it.2 = true) (imap pair (timers p)).

Definition running : Process → list nat :=
  where_timers (λ tm, bool_decide (threading.phase tm = threading.Running)).

Definition scheduled : Process → list nat :=
  where_timers (λ tm, bool_decide (threading.phase tm = threading.Waiting)
                      && negb (threading.finished tm)).

(** ** Persistence: what a restart reads back *)

(** The keys of every address record are texts, as JSON keeps them. *)
Definition text_keyed (s : Snapshot) : Prop :=
  map_Forall (λ _ (r : AddressRecord),
    map_Forall (λ k _, ∃ t, k = KStr t) r) s.

(** The object a new process builds after [data] was saved at [path]: the
    write of [refresh] followed by the read of [Metrics.__init__]. *)
Definition save_then_load (w : netifaces.World) (path : string)
    (data : Snapshot) (polling_interval : Z) (interface : string)
    (prefix_length : Z) : M Env Metrics.t :=
  (if decide (path ≠ "") then Metrics.save w path data else mret ());;
  Metrics.init polling_interval interface prefix_length path.

(** ** Notions used to state the properties *)

(** The address text of the first IPv6 entry of an interface in a
    snapshot. *)
Definition first_address (interface : string) (s : Snapshot) (addr : string)
    : Prop :=
  ∃ (r : AddressRecord) (e : Entry) (rest : list Entry),
    s !! interface = Some r
    ∧ r !! KInt netifaces.AF_INET6 = Some (e :: rest)
    ∧ e !! "addr" = Some addr.


(** The memory after one more logged line. *)
Definition logging (msg : LogMsg) (h : Metrics.Heap) : Metrics.Heap :=
  Metrics.mkHeap (Metrics.self h)
    (mkEnv (gauges (Metrics.env h)) (files (Metrics.env h))
       (logged (Metrics.env h) ++ [msg])).

(** A process that [main] started with an interface name, after some
    events. *)
Definition reachable (p : Process) : Prop :=
  ∃ polling_interval interface prefix_length file e evs p0,
    interface ≠ ""
    ∧ runM (main polling_interval interface prefix_length file) (boot e)
      = (p0, Ok ())
    ∧ run evs p0 = Some p.

(** The loop has one live timer at most, the one the global [timer] refers
    to: every other timer was never started or is over, and a started timer
    calls [refresh]. *)
Definition one_live_timer (p : Process) : Prop :=
  is_Some (metrics p)
  ∧ ∀ t tm, timers p !! t = Some tm →
      (t ≠ timer p →
         threading.phase tm = threading.Created
         ∨ threading.phase tm = threading.Done)
      ∧ (threading.phase tm ≠ threading.Created →
           threading.function tm = threading.Refresh).

(** No timer is calling its function and none will. *)
Definition quiet (p : Process) : Prop :=
  ∀ t tm, timers p !! t = Some tm →
    threading.phase tm ≠ threading.Running
    ∧ (threading.phase tm = threading.Waiting → threading.finished tm = true).

(** The name of the gauge of the default differ, the differ itself as the
    constructor builds it, and an object that has this differ only. *)
Definition gauge_name_of (interface : string) (prefix_length : Z) : string :=
  (ipv6_prefix.name +:+ "_" +:+ interface +:+ "_" +:+ pretty prefix_length)
  +:+ "_changed".

Definition ipv6_differ (interface : string) (prefix_length : Z) : Differ.t :=
  Differ.mk netaddr.IPAddress ipv6_prefix.name
    (ipv6_prefix.get interface prefix_length)
    (ChangeGaugeDiffer.diff (gauge_name_of interface prefix_length)).

Definition built (m : Metrics.t) : Prop :=
  Metrics.differs m
  = [ipv6_differ (Metrics.interface m) (Metrics.prefix_length m)].

(** ** The read surface *)

(** The body of a JSON response: null, the document of a snapshot or the
    object of the diffs. *)
Inductive Response :=
  | JsonNull
  | JsonSnapshotDoc (doc : JsonSnapshot)
  | JsonDiffs (diffs : gmap string Z).

(** The route /interfaces. *)
Definition get_interfaces (p : Process) : Response :=
  match metrics p with
  | None => JsonSnapshotDoc ∅
  | Some m =>
      match MetricsState.new (Metrics.state m) with
      | None => JsonNull
      | Some s => JsonSnapshotDoc (json.dump s)
      end
  end.

(** The route /diff. *)
Definition get_diff (p : Process) : Response :=
  match metrics p with
  | None => JsonDiffs ∅
  | Some m => JsonDiffs (MetricsState.diff (Metrics.state m))
  end.


(** ** Sample data *)

Module Sample.

Definition entry (addr : string) : Entry := {[ "addr" := addr ]}.

Definition eth0_record : AddressRecord :=
  {[ KInt netifaces.AF_INET6 := [entry "2001:db8::1"] ]}.
Definition eth0_record' : AddressRecord :=
  {[ KInt netifaces.AF_INET6 := [entry "2001:db8::2"] ]}.
Definition lo_record : AddressRecord :=
  {[ KInt netifaces.AF_INET := [entry "127.0.0.1"] ]}.

(** A host with the interfaces lo and eth0. *)
Definition host (eth0 : AddressRecord) (wr : WriteOutcome) : netifaces.World :=
  netifaces.mkWorld (Ok ["lo"; "eth0"])
    (λ name, if decide (name = "eth0") then Ok eth0
             else if decide (name = "lo") then Ok lo_record
             else Raise ValueError)
    wr.

Definition world : netifaces.World := host eth0_record Written.
Definition world' : netifaces.World := host eth0_record' Written.
Definition world_open_refused : netifaces.World :=
  host eth0_record (OpenRaises OSError).
Definition world_no_listing : netifaces.World :=
  netifaces.mkWorld (Raise OSError) (λ _, Raise ValueError) Written.
Definition world_bad_address : netifaces.World :=
  host {[ KInt netifaces.AF_INET6 := [entry "fe80::1%eth0"] ]} Written.

(** Two snapshots of eth0 whose first IPv6 address differs within one
    /64. *)
Definition snapshot : Snapshot := {[ "eth0" := eth0_record ]}.

Definition env : Env := mkEnv ∅ ∅ [].

(** The object of [Metrics(10, "eth0", 64, "interface.state")] on a
    host without a state file, and the memory around it. *)
Definition heap : Metrics.Heap :=
  let '(e, r) := runM (Metrics.init 10 "eth0" 64 "interface.state") env in
  match r with
  | Ok m => Metrics.mkHeap m e
  | Raise _ =>
      Metrics.mkHeap
        (Metrics.mk 10 "eth0" 64 "interface.state" MetricsState.init []) e
  end.

(** A host whose state file holds [c], and the object that
    [Metrics(10, "eth0", 64, "interface.state")] builds there. *)
Definition env_with (c : FileContent) : Env :=
  mkEnv ∅ {[ "interface.state" := c ]} [].
Definition restarted (c : FileContent) : Env * result Metrics.t :=
  runM (Metrics.init 10 "eth0" 64 "interface.state") (env_with c).

(** The document of a snapshot whose keys are texts. *)
Definition document : JsonSnapshot :=
  {[ "eth0" := {[ "10" := [entry "2001:db8::1"] ]} ]}.

(** The process after [main] with the default arguments. *)
Definition process : Process :=
  exec (main 10 "eth0" 64 "interface.state") (boot env).

(** The sample process when its first timer has fired and the first cycle
    is running. *)
Definition firing : Process :=
exec (update_timer 1 (threading.set_phase threading.Running)) process.

End Sample.

(** * Properties *)

(** ** Running the monad *)

Lemma runM_bind {S A B} (m : M S A) (f : A → M S B) (s : S) :
  runM (m ≫= f) s =
  match runM m s with
  | (s', Ok a) => runM (f a) s'
  | (s', Raise e) => (s', Raise e)
  end.
Proof. reflexivity. Qed.

Lemma runM_gets {S A} (f : S → A) (s : S) : runM (gets f) s = (s, Ok (f s)).
Proof. reflexivity. Qed.

Lemma runM_lift {S A} (r : result A) (s : S) : runM (lift r) s = (s, r).
Proof. reflexivity. Qed.

Lemma runM_ret {S A} (a : A) (s : S) : runM (mret a) s = (s, Ok a).
Proof. reflexivity. Qed.

Lemma runM_modify {S} (f : S → S) (s : S) : runM (modify f) s = (f s, Ok ()).
Proof. reflexivity. Qed.

Lemma runM_log (msg : LogMsg) (h : Metrics.Heap) :
  runM (Metrics.in_env (log msg)) h = (logging msg h, Ok ()).
Proof. reflexivity. Qed.

Lemma for_each_cons {S A B} (body : B → A → M S B) (acc : B) (x : A)
    (xs : list A) :
  for_each body acc (x :: xs) = body acc x ≫= λ acc', for_each body acc' xs.
Proof. reflexivity. Qed.

(** ** The text of an address *)

Example str_to_int_compressed :
  netaddr.str_to_int 6 "2001:db8::1" = Some 0x20010db8000000000000000000000001.
Proof. vm_compute. reflexivity. Qed.

Example str_to_int_full :
  netaddr.str_to_int 6 "1:2:3:4:5:6:7:8" = Some 0x00010002000300040005000600070008.
Proof. vm_compute. reflexivity. Qed.

Example str_to_int_unspecified : netaddr.str_to_int 6 "::" = Some 0.
Proof. vm_compute. reflexivity. Qed.

Example str_to_int_embedded_quad :
  netaddr.str_to_int 6 "::ffff:1.2.3.4" = Some 0xffff01020304.
Proof. vm_compute. reflexivity. Qed.

Example str_to_int_quad : netaddr.str_to_int 4 "1.2.3.4" = Some 0x01020304.
Proof. vm_compute. reflexivity. Qed.

Example str_to_int_refused :
  netaddr.str_to_int 6 "" = None
  ∧ netaddr.str_to_int 6 ":" = None
  ∧ netaddr.str_to_int 6 ":::" = None
  ∧ netaddr.str_to_int 6 "1::2::3" = None
  ∧ netaddr.str_to_int 6 "1:2:3:4:5:6:7:8::" = None
  ∧ netaddr.str_to_int 6 "fe80::1%eth0" = None.
Proof. vm_compute. repeat split. Qed.




(** ** The extraction chain of [ipv6_prefix.get] *)

Lemma if_truthy_Some {A} `{EqDecision A} (falsy x : A) :
  ipv6_prefix.if_truthy falsy (Some x) = if decide (x = falsy) then [] else [x].
Proof.
  unfold ipv6_prefix.if_truthy. simpl. rewrite filter_cons, filter_nil.
  destruct (decide (x = falsy)), (decide (x ≠ falsy)); done.
Qed.

(** The generator of [get], clause by clause. *)
Lemma get_unfold (interface : string) (prefix_length : Z)
    (S : option Snapshot) :
  ipv6_prefix.get interface prefix_length S =
  match S with
  | None => Ok None
  | Some s =>
      match s !! interface with
      | None => Ok None
      | Some r =>
          if decide (r = ∅) then Ok None
          else match r !! KInt netifaces.AF_INET6 with
               | None | Some [] => Ok None
               | Some (first_address :: _) =>
                   match first_address !! "addr" with
                   | None => Ok None
                   | Some addr =>
                       if decide (addr = "") then Ok None
                       else n ← netaddr.IPNetwork_of addr prefix_length;
                            Ok (Some (netaddr.network n))
                   end
               end
      end
  end.
Proof.
  destruct S as [s|]; [|reflexivity].
  unfold ipv6_prefix.get, ipv6_prefix.if_not_None. simpl.
  destruct (s !! interface) as [r|]; [|reflexivity].
  rewrite if_truthy_Some. destruct (decide (r = ∅)); [reflexivity|]. simpl.
  destruct (r !! KInt netifaces.AF_INET6) as [[|e rest]|];
    [reflexivity| |reflexivity].
  rewrite if_truthy_Some. simpl.
  destruct (e !! "addr") as [addr|]; [|reflexivity].
  rewrite if_truthy_Some. destruct (decide (addr = "")); [reflexivity|]. simpl.
  unfold the. simpl.
  destruct (netaddr.IPNetwork_of addr prefix_length); reflexivity.
Qed.

(** C5: [ipv6_prefix.get] returns no value, and raises nothing, when the
    snapshot is absent, when the configured interface is not in it, when the
    IPv6 list of that interface is absent or empty, and when the first entry
    of that list has no address field. *)
Theorem get_absent_never_raises (interface : string) (prefix_length : Z)
    (S : option Snapshot) :
  S = None
  ∨ (∃ s, S = Some s ∧ s !! interface = None)
  ∨ (∃ s r, S = Some s ∧ s !! interface = Some r
       ∧ (r !! KInt netifaces.AF_INET6 = None
          ∨ r !! KInt netifaces.AF_INET6 = Some []))
  ∨ (∃ s r first_address rest, S = Some s ∧ s !! interface = Some r
       ∧ r !! KInt netifaces.AF_INET6 = Some (first_address :: rest)
       ∧ first_address !! "addr" = None) →
  ipv6_prefix.get interface prefix_length S = Ok None.
Proof.
  rewrite get_unfold.
  intros [->|[(s & -> & ->)|[(s & r & -> & -> & Hr)
                            |(s & r & e & rest & -> & -> & -> & ->)]]];
    try reflexivity.
  - destruct (decide (r = ∅)); [reflexivity|]. by destruct Hr as [-> | ->].
  - by destruct (decide (r = ∅)).
Qed.

Lemma get_absent_never_raises_witness :
  ipv6_prefix.get "eth0" 64
    (Some {[ "eth0" := {[ KInt 10 := [ (∅ : Entry) ] ]} ]}) = Ok None.
Proof.
  apply get_absent_never_raises. right. right. right.
  exists {[ "eth0" := {[ KInt 10 := [ (∅ : Entry) ] ]} ]},
         {[ KInt 10 := [ (∅ : Entry) ] ]}, ∅, [].
  repeat split; reflexivity.
Defined.

(** ** The change signal *)

Lemma diff_run {V} `{EqDecision V} (gauge_name : string) (old new : option V)
    (e : Env) :
  runM (ChangeGaugeDiffer.diff gauge_name old new) e =
  let d := if decide (old = new) then 0 else 1 in
  (mkEnv (<[gauge_name := d]> (gauges e)) (files e) (logged e), Ok d).
Proof.
  unfold ChangeGaugeDiffer.diff, ChangeGaugeDiffer.changed. simpl.
  destruct (decide (old = new)) as [Heq|Hne].
  - rewrite bool_decide_eq_false_2 by (intros Hn; by apply Hn). reflexivity.
  - rewrite bool_decide_eq_true_2 by done. reflexivity.
Qed.

(** C6: [diff] is 0 on two absent values and on two equal values, 1 when
    exactly one value is absent and when the two values differ: it is 1
    exactly when old and new differ, absence being a value of its own. *)
Theorem diff_is_inequality {V : Type} `{EqDecision V} (gauge_name : string)
    (e : Env) :
  let diff := λ old new : option V,
    (runM (ChangeGaugeDiffer.diff gauge_name old new) e).2 in
  diff None None = Ok 0
  ∧ (∀ v, diff None (Some v) = Ok 1)
  ∧ (∀ v, diff (Some v) None = Ok 1)
  ∧ (∀ v, diff (Some v) (Some v) = Ok 0)
  ∧ (∀ v1 v2, v1 ≠ v2 → diff (Some v1) (Some v2) = Ok 1)
  ∧ (∀ old new, diff old new = Ok 1 ↔ old ≠ new)
  ∧ (∀ old new, diff old new = Ok 0 ↔ old = new).
Proof.
  cbv zeta.
  repeat split; intros; rewrite ?diff_run in *; simpl in *;
    repeat case_decide; simplify_eq; try done.
Qed.

Lemma diff_is_inequality_witness :
  (runM (ChangeGaugeDiffer.diff "ipv6_prefix_eth0_64_changed"
           (Some (netaddr.mkIPAddress 6 1)) (Some (netaddr.mkIPAddress 6 2)))
     Sample.env).2 = Ok 1.
Proof.
  apply (proj1 (proj2 (proj2 (proj2 (proj2
           (diff_is_inequality (V := netaddr.IPAddress)
              "ipv6_prefix_eth0_64_changed" Sample.env)))))).
  discriminate.
Defined.




(** ** One refresh cycle *)

Lemma in_env_self {A} (m : M Env A) (h : Metrics.Heap) :
  Metrics.self (runM (Metrics.in_env m) h).1 = Metrics.self h.
Proof. unfold Metrics.in_env. simpl. by destruct (runM m (Metrics.env h)). Qed.

Lemma run_differ_self (o n : option Snapshot) (diffs : gmap string Z)
    (differ : Differ.t) (h : Metrics.Heap) :
  Metrics.self (runM (Metrics.run_differ o n diffs differ) h).1
  = Metrics.self h.
Proof.
  unfold Metrics.run_differ. simpl.
  destruct (Differ.get differ o); [|done]. simpl.
  destruct (Differ.get differ n); [|done]. simpl.
  destruct (runM (Differ.diff differ a a0) _) as [e [d|x]]; done.
Qed.

(** The loop over the differs leaves the object as it is. *)
Lemma for_each_self (o n : option Snapshot) (differs : list Differ.t) :
  ∀ (diffs : gmap string Z) (h : Metrics.Heap),
    Metrics.self (runM (for_each (Metrics.run_differ o n) diffs differs) h).1
    = Metrics.self h.
Proof.
  induction differs as [|d ds IH]; intros diffs h; [done|].
  rewrite for_each_cons, runM_bind.
  pose proof (run_differ_self o n diffs d h) as Hd.
  destruct (runM (Metrics.run_differ o n diffs d) h) as [h1 [diffs1|x]];
    simpl in *.
  - rewrite <- Hd. apply IH.
  - done.
Qed.

Ltac step_refresh w h :=
  unfold Metrics.refresh;
  rewrite runM_bind, runM_log, runM_bind, runM_gets, runM_bind, runM_lift;
  change (Metrics.self (logging RefreshingState h)) with (Metrics.self h).

(** What a cycle leaves: on return, the object with its state replaced by
    the previous new snapshot, the captured one and the diffs; on an
    exception, the object as it was. *)
Lemma refresh_outcome (w : netifaces.World) (h h' : Metrics.Heap)
    (r : result unit) :
  runM (Metrics.refresh w) h = (h', r) →
  match r with
  | Ok _ =>
      ∃ snap diffs,
        Metrics.captured (Metrics.interface (Metrics.self h)) w = Ok snap
        ∧ Metrics.self h'
          = Metrics.set_state
              (MetricsState.mk
                 (MetricsState.new (Metrics.state (Metrics.self h)))
                 (Some snap) diffs)
              (Metrics.self h)
  | Raise _ => Metrics.self h' = Metrics.self h
  end.
Proof.
  step_refresh w h. unfold Metrics.captured.
  destruct (netifaces.interfaces w) as [names|x]; [|by intros [= <- <-]].
  rewrite runM_bind, runM_lift. simpl (Ok names ≫= _).
  destruct (Metrics.dict_comprehension _ names ∅) as [snap|x];
    [|by intros [= <- <-]].
  rewrite runM_bind.
  match goal with
  | |- context [runM (for_each (Metrics.run_differ ?o ?n) ?a ?l) ?h0] =>
      pose proof (for_each_self o n l a h0) as Hfe;
      destruct (runM (for_each (Metrics.run_differ o n) a l) h0)
        as [h1 [diffs|x]]
  end; simpl in Hfe; [|by intros [= <- <-]].
  rewrite runM_bind.
  destruct (decide (Metrics.file_path (Metrics.self h) ≠ "")).
  - unfold Metrics.save. destruct (netifaces.write w); simpl.
    + intros [= <- <-]. exists snap, diffs. simpl. by rewrite Hfe.
    + by intros [= <- <-].
    + by intros [= <- <-].
  - rewrite runM_ret, runM_modify. intros [= <- <-].
    exists snap, diffs. simpl. by rewrite Hfe.
Qed.

Lemma refresh_Ok_inv (w : netifaces.World) (h h' : Metrics.Heap) :
  runM (Metrics.refresh w) h = (h', Ok ()) →
  Metrics.interface (Metrics.self h') = Metrics.interface (Metrics.self h)
  ∧ MetricsState.old (Metrics.state (Metrics.self h'))
    = MetricsState.new (Metrics.state (Metrics.self h))
  ∧ ∃ snap, Metrics.captured (Metrics.interface (Metrics.self h)) w = Ok snap
            ∧ MetricsState.new (Metrics.state (Metrics.self h')) = Some snap.
Proof.
  intros Hrun.
  destruct (refresh_outcome _ _ _ _ Hrun) as (snap & diffs & Hc & ->).
  repeat split. by exists snap.
Qed.

(** A cycle returns only if the state file was written or none is
    configured. *)
Lemma refresh_Ok_written (w : netifaces.World) (h : Metrics.Heap) :
  (runM (Metrics.refresh w) h).2 = Ok () →
  Metrics.file_path (Metrics.self h) = "" ∨ netifaces.write w = Written.
Proof.
  step_refresh w h.
  destruct (netifaces.interfaces w) as [names|x]; [|done].
  rewrite runM_bind, runM_lift. simpl (Ok names ≫= _).
  destruct (Metrics.dict_comprehension _ names ∅) as [snap|x]; [|done].
  rewrite runM_bind.
  match goal with
  | |- context [runM (for_each (Metrics.run_differ ?o ?n) ?a ?l) ?h0] =>
      destruct (runM (for_each (Metrics.run_differ o n) a l) h0)
        as [h1 [diffs|x]]
  end; [|done].
  rewrite runM_bind.
  destruct (decide (Metrics.file_path (Metrics.self h) ≠ "")) as [Hp|Hp].
  - unfold Metrics.save. destruct (netifaces.write w); simpl; [by right|done..].
  - intros _. left.
    by destruct (decide (Metrics.file_path (Metrics.self h) = "")).
Qed.

(** C10: when a step of [Metrics.refresh] raises (the capture of the
    snapshot, a differ or the write of the state file), the object keeps the
    state it had: old, new and the diff map are installed together, by the
    last statement only. *)
Theorem refresh_raise_keeps_state (w : netifaces.World) (h : Metrics.Heap)
    (e : exn) :
  (runM (Metrics.refresh w) h).2 = Raise e →
  Metrics.self (runM (Metrics.refresh w) h).1 = Metrics.self h.
Proof.
  destruct (runM (Metrics.refresh w) h) as [h' r] eqn:Hrun. simpl. intros ->.
  exact (refresh_outcome _ _ _ _ Hrun).
Qed.

Lemma refresh_raise_keeps_state_witness :
  Metrics.self (runM (Metrics.refresh Sample.world_no_listing) Sample.heap).1
  = Metrics.self Sample.heap.
Proof.
  apply (refresh_raise_keeps_state Sample.world_no_listing Sample.heap OSError).
  vm_compute. reflexivity.
Defined.

(** Each of the three steps can be the one that raises. *)
Example refresh_raises_in_capture :
  (runM (Metrics.refresh Sample.world_no_listing) Sample.heap).2
  = Raise OSError.
Proof. vm_compute. reflexivity. Qed.

Example refresh_raises_in_differ :
  (runM (Metrics.refresh Sample.world_bad_address) Sample.heap).2
  = Raise AddrFormatError.
Proof. vm_compute. reflexivity. Qed.

Example refresh_raises_in_write :
  (runM (Metrics.refresh Sample.world_open_refused) Sample.heap).2
  = Raise OSError.
Proof. vm_compute. reflexivity. Qed.

(** C3, as the code has it: with a state file configured, a write that
    raises makes [Metrics.refresh] raise, and the object keeps the state of
    the cycle before. *)
Theorem refresh_write_failure_aborts (w : netifaces.World) (h : Metrics.Heap)
    (e : exn) :
  Metrics.file_path (Metrics.self h) ≠ "" →
  netifaces.write w = OpenRaises e ∨ netifaces.write w = DumpRaises e →
  ∃ e', (runM (Metrics.refresh w) h).2 = Raise e'
        ∧ Metrics.self (runM (Metrics.refresh w) h).1 = Metrics.self h.
Proof.
  intros Hp Hw.
  destruct (runM (Metrics.refresh w) h).2 as [[]|e'] eqn:Hr.
  - destruct (refresh_Ok_written _ _ Hr) as [?|Hwr]; [done|].
    rewrite Hwr in Hw. by destruct Hw.
  - exists e'. split; [done|]. by eapply refresh_raise_keeps_state.
Qed.

Lemma refresh_write_failure_aborts_witness :
  ∃ e', (runM (Metrics.refresh Sample.world_open_refused) Sample.heap).2
        = Raise e'
        ∧ Metrics.self
            (runM (Metrics.refresh Sample.world_open_refused) Sample.heap).1
          = Metrics.self Sample.heap.
Proof.
  apply (refresh_write_failure_aborts Sample.world_open_refused Sample.heap
           OSError).
  - vm_compute. discriminate.
  - left. reflexivity.
Defined.

(** C3, as the specification has it, fails: on a host where the state file
    cannot be opened the cycle captures a snapshot, raises OSError and
    leaves the new snapshot of the object absent as before. *)
Lemma refresh_write_failure_not_installed :
  netifaces.write Sample.world_open_refused = OpenRaises OSError
  ∧ (∃ snap, Metrics.captured "eth0" Sample.world_open_refused = Ok snap)
  ∧ (runM (Metrics.refresh Sample.world_open_refused) Sample.heap).2
    = Raise OSError
  ∧ MetricsState.new (Metrics.state (Metrics.self
       (runM (Metrics.refresh Sample.world_open_refused) Sample.heap).1))
    = None.
Proof.
  split; [reflexivity|]. split; [eexists; vm_compute; reflexivity|].
  split; vm_compute; reflexivity.
Qed.

(** ** Sequences of cycles *)

Lemma refreshes_cons (w : netifaces.World) (ws : list netifaces.World) :
  Metrics.refreshes (w :: ws) = Metrics.refresh w ≫= λ _, Metrics.refreshes ws.
Proof. reflexivity. Qed.

Lemma refreshes_snoc (ws : list netifaces.World) (w : netifaces.World) :
  ∀ h, runM (Metrics.refreshes (ws ++ [w])) h =
       match runM (Metrics.refreshes ws) h with
       | (h1, Ok _) => runM (Metrics.refresh w) h1
       | (h1, Raise e) => (h1, Raise e)
       end.
Proof.
  induction ws as [|w0 ws IH]; intros h.
  - simpl app. rewrite refreshes_cons, runM_bind. simpl (Metrics.refreshes []).
    rewrite runM_ret. by destruct (runM (Metrics.refresh w) h) as [h1 [[]|e]].
  - simpl app. rewrite !refreshes_cons, !runM_bind.
    destruct (runM (Metrics.refresh w0) h) as [h0 [[]|e]]; [apply IH|done].
Qed.

(** After calls that all return, the new snapshot is the one captured in
    the world of the last call. *)
Lemma refreshes_last (ws : list netifaces.World) :
  ∀ h h1, runM (Metrics.refreshes ws) h = (h1, Ok ()) →
    Metrics.interface (Metrics.self h1) = Metrics.interface (Metrics.self h)
    ∧ match last ws with
      | None => h1 = h
      | Some w' =>
          ∃ snap,
            Metrics.captured (Metrics.interface (Metrics.self h)) w' = Ok snap
            ∧ MetricsState.new (Metrics.state (Metrics.self h1)) = Some snap
      end.
Proof.
  induction ws as [|w0 ws IH]; intros h h1.
  - simpl. by intros [= ->].
  - rewrite refreshes_cons, runM_bind.
    destruct (runM (Metrics.refresh w0) h) as [h0 [[]|e]] eqn:H0; [|done].
    intros Hrest. destruct (refresh_Ok_inv _ _ _ H0) as (Hi & _ & Hnew).
    destruct (IH _ _ Hrest) as [Hi' Hlast]. split; [congruence|].
    destruct ws as [|w1 ws'].
    + simpl in *. by subst h1.
    + rewrite last_cons.
      destruct (last (w1 :: ws')) eqn:Hl; [by rewrite <- Hi|].
      by apply last_None in Hl.
Qed.

(** C7: after N ≥ 1 calls of [Metrics.refresh] in a row (the worlds
    [ws ++ [w]]) that return, the old snapshot is the new snapshot that the
    object had after the first N−1 calls: the snapshot captured by call
    N−1, or for N = 1 the new snapshot the object started with. *)
Theorem old_is_previous_new (ws : list netifaces.World) (w : netifaces.World)
    (h : Metrics.Heap) :
  let before := (runM (Metrics.refreshes ws) h).1 in
  let after := runM (Metrics.refreshes (ws ++ [w])) h in
  after.2 = Ok () →
  MetricsState.old (Metrics.state (Metrics.self after.1))
  = MetricsState.new (Metrics.state (Metrics.self before))
  ∧ match last ws with
    | None =>
        MetricsState.new (Metrics.state (Metrics.self before))
        = MetricsState.new (Metrics.state (Metrics.self h))
    | Some w' =>
        ∃ snap,
          Metrics.captured (Metrics.interface (Metrics.self h)) w' = Ok snap
          ∧ MetricsState.new (Metrics.state (Metrics.self before)) = Some snap
    end.
Proof.
  cbv zeta. rewrite refreshes_snoc.
  destruct (runM (Metrics.refreshes ws) h) as [h1 [[]|e]] eqn:H1; [|done].
  destruct (runM (Metrics.refresh w) h1) as [h2 [[]|e]] eqn:H2; [|done].
  intros _. simpl.
  destruct (refresh_Ok_inv _ _ _ H2) as (_ & Hold & _). split; [done|].
  destruct (refreshes_last _ _ _ H1) as [_ Hlast].
  destruct (last ws); [done|by subst].
Qed.

Lemma old_is_previous_new_witness :
  MetricsState.old (Metrics.state (Metrics.self
     (runM (Metrics.refreshes ([Sample.world] ++ [Sample.world']))
        Sample.heap).1))
  = MetricsState.new (Metrics.state (Metrics.self
     (runM (Metrics.refreshes [Sample.world]) Sample.heap).1))
  ∧ ∃ snap,
      Metrics.captured (Metrics.interface (Metrics.self Sample.heap))
        Sample.world = Ok snap
      ∧ MetricsState.new (Metrics.state (Metrics.self
          (runM (Metrics.refreshes [Sample.world]) Sample.heap).1))
        = Some snap.
Proof.
  apply (old_is_previous_new [Sample.world] Sample.world' Sample.heap).
  vm_compute. reflexivity.
Defined.

(** ** The captured snapshot *)

Lemma dict_comprehension_const {V} (r : result V) (names : list string) :
  ∀ acc snap,
    Metrics.dict_comprehension (λ _, r) names acc = Ok snap →
    ∀ name, name ∈ names → ∃ v, r = Ok v ∧ snap !! name = Some v.
Proof.
  induction names as [|n names IH]; intros acc snap Hd name Hin.
  - by apply elem_of_nil in Hin.
  - simpl in Hd. destruct r as [v|e]; [|done]. simpl in Hd.
    exists v. split; [done|].
    destruct (decide (name ∈ names)) as [Hin'|Hnin].
    + destruct (IH _ _ Hd name Hin') as (v' & [= <-] & ?). done.
    + apply elem_of_cons in Hin as [->|?]; [|done].
      clear IH. revert acc Hd.
      induction names as [|m names IHn]; intros acc Hd.
      * simpl in Hd. injection Hd as <-. apply lookup_insert_eq.
      * simpl in Hd. apply not_elem_of_cons in Hnin as [Hne Hnin].
        rewrite insert_insert_ne in Hd by done. by eapply IHn.
Qed.

(** What the comprehension of [refresh] builds: every reported name is
    mapped to the record of the configured interface. *)
Lemma refresh_new_maps_to_configured (w : netifaces.World)
    (h h' : Metrics.Heap) (names : list string) (name : string) :
  runM (Metrics.refresh w) h = (h', Ok ()) →
  netifaces.interfaces w = Ok names →
  name ∈ names →
  ∃ snap r,
    MetricsState.new (Metrics.state (Metrics.self h')) = Some snap
    ∧ netifaces.ifaddresses w (Metrics.interface (Metrics.self h)) = Ok r
    ∧ snap !! name = Some r.
Proof.
  intros Hrun Hnames Hin.
  destruct (refresh_Ok_inv _ _ _ Hrun) as (_ & _ & snap & Hc & Hnew).
  unfold Metrics.captured in Hc. rewrite Hnames in Hc. simpl in Hc.
  destruct (dict_comprehension_const _ _ _ _ Hc name Hin) as (r & Hr & Hl).
  by exists snap, r.
Qed.

(** C1 fails on the code: on a host with the interfaces lo and eth0, with
    eth0 configured, the new snapshot maps lo to the record of eth0, which
    is not the record the host reports for lo. *)
Theorem refresh_maps_lo_to_eth0_record :
  netifaces.interfaces Sample.world = Ok ["lo"; "eth0"]
  ∧ netifaces.ifaddresses Sample.world "lo" = Ok Sample.lo_record
  ∧ Sample.lo_record ≠ Sample.eth0_record
  ∧ ∃ snap,
      MetricsState.new (Metrics.state (Metrics.self
        (runM (Metrics.refresh Sample.world) Sample.heap).1)) = Some snap
      ∧ snap !! "lo" = Some Sample.eth0_record.
Proof.
  split; [reflexivity|]. split; [reflexivity|]. split.
  - intros H.
    apply (f_equal (λ r : AddressRecord, r !! KInt netifaces.AF_INET)) in H.
    vm_compute in H. discriminate.
  - eexists. split; vm_compute; reflexivity.
Qed.

(** ** The persisted state *)

(** A renaming of keys that is injective on the keys of a map keeps its
    entries. *)
Lemma lookup_kmap_inj_on `{Countable K1, Countable K2} {A} (f : K1 → K2)
    (m : gmap K1 A) (j : K2) (x : A) :
  (∀ i i', is_Some (m !! i) → is_Some (m !! i') → f i = f i' → i = i') →
  kmap (M1 := gmap K1) (M2 := gmap K2) f m !! j = Some x
  ↔ ∃ i, j = f i ∧ m !! i = Some x.
Proof.
  intros Hinj. unfold kmap. rewrite <- elem_of_list_to_map.
  - rewrite list_elem_of_fmap. split.
    + intros ([i y] & [= -> ->] & Hin). exists i.
      by apply elem_of_map_to_list in Hin.
    + intros (i & -> & Hi). exists (i, x). split; [done|].
      by apply elem_of_map_to_list.
  - rewrite <- list_fmap_compose.
    change (fst ∘ prod_map f id) with (f ∘ (fst : K1 * A → K1)).
    rewrite list_fmap_compose. apply NoDup_fmap_2_strong.
    + intros i i' Hi Hi' Hf. apply Hinj; [| |done].
      * apply list_elem_of_fmap in Hi as ([? y] & -> & Hin).
        apply elem_of_map_to_list in Hin. by exists y.
      * apply list_elem_of_fmap in Hi' as ([? y] & -> & Hin).
        apply elem_of_map_to_list in Hin. by exists y.
    + apply NoDup_fst_map_to_list.
Qed.

Lemma load_dump_record (r : AddressRecord) :
  map_Forall (λ k _, ∃ t, k = KStr t) r →
  json.load_record (json.dump_record r) = r.
Proof.
  intros Hkeys. apply map_eq. intros k. apply option_eq. intros x.
  unfold json.load_record, json.dump_record.
  rewrite lookup_kmap_inj_on by (by intros ???? [= ->]). split.
  - intros (s & -> & Hs).
    apply lookup_kmap_inj_on in Hs as (i & -> & Hi).
    + by destruct (Hkeys _ _ Hi) as [t ->].
    + intros i i' [y Hy] [y' Hy'].
      destruct (Hkeys _ _ Hy) as [t ->], (Hkeys _ _ Hy') as [t' ->].
      simpl. by intros ->.
  - intros Hk. destruct (Hkeys _ _ Hk) as [t ->]. exists t. split; [done|].
    apply lookup_kmap_inj_on.
    + intros i i' [y Hy] [y' Hy'].
      destruct (Hkeys _ _ Hy) as [t0 ->], (Hkeys _ _ Hy') as [t' ->].
      simpl. by intros ->.
    + by exists (KStr t).
Qed.

(** Reading back what was written gives the snapshot again when its keys
    are texts. *)
Lemma load_dump (s : Snapshot) : text_keyed s → json.load (json.dump s) = s.
Proof.
  intros Hs. unfold json.load, json.dump. rewrite <- map_fmap_compose.
  apply map_eq. intros i. rewrite lookup_fmap.
  destruct (s !! i) as [r|] eqn:Hi; [|done]. simpl.
  f_equal. apply load_dump_record. exact (Hs _ _ Hi).
Qed.

(** An integer key comes back as its numeral. *)
Example load_dump_integer_key :
  json.load (json.dump Sample.snapshot)
  = {[ "eth0" := {[ KStr "10" := [Sample.entry "2001:db8::1"] ]} ]}.
Proof. vm_compute. reflexivity. Qed.

Lemma ipv6_prefix_init_run (interface : string) (prefix_length : Z) (e e' : Env)
    (d : Differ.t) :
  runM (ipv6_prefix.init interface prefix_length) e = (e', Ok d) →
  files e' = files e ∧ logged e' = logged e.
Proof.
  unfold ipv6_prefix.init, ChangeGaugeDiffer.init, ChangeGaugeDiffer.Gauge.
  simpl. destruct (gauges e !! _); simpl; [done|]. by intros [= <- _].
Qed.

(** The state the constructor leaves, by what the state file holds. *)
Lemma init_state (polling_interval : Z) (interface : string)
    (prefix_length : Z) (file_path : string) (e e' : Env) (m : Metrics.t) :
  runM (Metrics.init polling_interval interface prefix_length file_path) e
  = (e', Ok m) →
  Metrics.state m =
  if decide (file_path = "") then MetricsState.init
  else match files e !! file_path with
       | None | Some Unparseable => MetricsState.init
       | Some (Json doc) =>
           if decide (doc = ∅) then MetricsState.init
           else MetricsState.mk (Some (json.load doc)) (Some (json.load doc)) ∅
       end.
Proof.
  unfold Metrics.init. rewrite runM_bind.
  destruct (runM (ipv6_prefix.init interface prefix_length) e)
    as [e1 [d|x]] eqn:Hd; [|done].
  destruct (ipv6_prefix_init_run _ _ _ _ _ Hd) as [Hf _].
  destruct (decide (file_path ≠ "")) as [Hp|Hp].
  - rewrite decide_False by done. simpl. rewrite Hf.
    destruct (files e !! file_path) as [[|doc]|]; simpl.
    + by intros [= _ <-].
    + unfold json.load.
      destruct (decide (doc = ∅)) as [->|Hne].
      * rewrite fmap_empty. rewrite decide_False by (by intros H; apply H).
        by intros [= _ <-].
      * rewrite decide_True by (by rewrite fmap_empty_iff).
        by intros [= _ <-].
    + by intros [= _ <-].
  - rewrite decide_True by (by destruct (decide (file_path = ""))).
    rewrite runM_ret. by intros [= _ <-].
Qed.


(** The constructor returns when the name of its gauge is free. *)
Lemma init_returns (polling_interval : Z) (interface : string)
    (prefix_length : Z) (file_path : string) (e : Env) :
  gauges e !! ((ipv6_prefix.name +:+ "_" +:+ interface +:+ "_"
                +:+ pretty prefix_length) +:+ "_changed") = None →
  ∃ e' m,
    runM (Metrics.init polling_interval interface prefix_length file_path) e
    = (e', Ok m).
Proof.
  intros Hfree. unfold Metrics.init. rewrite runM_bind.
  unfold ipv6_prefix.init. rewrite runM_bind.
  unfold ChangeGaugeDiffer.init. rewrite runM_bind.
  unfold ChangeGaugeDiffer.Gauge. rewrite runM_bind, runM_gets, Hfree.
  rewrite runM_modify, runM_ret, runM_ret.
  destruct (decide (file_path ≠ "")); [|rewrite runM_ret; eauto].
  rewrite runM_bind. unfold log at 1. rewrite runM_modify.
  rewrite runM_bind, runM_gets. cbn [files].
  destruct (files e !! file_path) as [[|doc]|].
  - rewrite runM_bind. unfold log. rewrite runM_modify, runM_ret. eauto.
  - destruct (decide (json.load doc ≠ ∅)); rewrite runM_ret; eauto.
  - rewrite runM_bind. unfold log. rewrite runM_modify, runM_ret. eauto.
Qed.



(** What a restart finds after a snapshot was saved. *)
Lemma save_then_load_state (w : netifaces.World) (path : string)
    (data : Snapshot) (polling_interval : Z) (interface : string)
    (prefix_length : Z) (e e' : Env) (m : Metrics.t) :
  path ≠ "" →
  netifaces.write w = Written →
  runM (save_then_load w path data polling_interval interface prefix_length) e
  = (e', Ok m) →
  Metrics.state m =
  if decide (data = ∅) then MetricsState.init
  else MetricsState.mk (Some (json.load (json.dump data)))
         (Some (json.load (json.dump data))) ∅.
Proof.
  intros Hp Hw. unfold save_then_load.
  rewrite decide_True by done. rewrite runM_bind.
  unfold Metrics.save. rewrite Hw, runM_modify. intros Hrun.
  rewrite (init_state _ _ _ _ _ _ _ Hrun). rewrite decide_False by done.
  cbn [files]. rewrite lookup_insert_eq. unfold json.dump at 1.
  destruct (decide (data = ∅)) as [->|Hne].
  - rewrite decide_True; [done|]. apply fmap_empty.
  - rewrite decide_False; [done|]. intros H. by apply fmap_empty_iff in H.
Qed.

Lemma save_then_load_returns (w : netifaces.World) (path : string)
    (data : Snapshot) (polling_interval : Z) (interface : string)
    (prefix_length : Z) (e : Env) :
  netifaces.write w = Written →
  gauges e !! ((ipv6_prefix.name +:+ "_" +:+ interface +:+ "_"
                +:+ pretty prefix_length) +:+ "_changed") = None →
  ∃ e' m,
    runM (save_then_load w path data polling_interval interface prefix_length) e
    = (e', Ok m).
Proof.
  intros Hw Hfree. unfold save_then_load. rewrite runM_bind.
  destruct (decide (path ≠ "")).
  - unfold Metrics.save. rewrite Hw, runM_modify. by apply init_returns.
  - rewrite runM_ret. by apply init_returns.
Qed.

(** C2, as the code has it: with a state file configured and written, a
    snapshot whose keys are texts and that is not empty is read back as it
    was saved, into old and new; the empty snapshot is read back as
    absent. *)
Theorem save_then_load_text_keyed (w : netifaces.World) (path : string)
    (data : Snapshot) (polling_interval : Z) (interface : string)
    (prefix_length : Z) (e e' : Env) (m : Metrics.t) :
  path ≠ "" →
  netifaces.write w = Written →
  text_keyed data →
  runM (save_then_load w path data polling_interval interface prefix_length) e
  = (e', Ok m) →
  (data ≠ ∅ →
     MetricsState.old (Metrics.state m) = Some data
     ∧ MetricsState.new (Metrics.state m) = Some data)
  ∧ (data = ∅ →
       MetricsState.old (Metrics.state m) = None
       ∧ MetricsState.new (Metrics.state m) = None).
Proof.
  intros Hp Hw Hkeys Hrun.
  rewrite (save_then_load_state _ _ _ _ _ _ _ _ _ Hp Hw Hrun). split.
  - intros Hne. rewrite decide_False by done. by rewrite load_dump.
  - intros ->. by rewrite decide_True.
Qed.

Lemma load_text_keyed (d : JsonSnapshot) : text_keyed (json.load d).
Proof.
  unfold text_keyed. rewrite map_Forall_lookup. intros i r Hi.
  unfold json.load in Hi. rewrite lookup_fmap in Hi.
  destruct (d !! i) as [jr|]; [|discriminate]. injection Hi as <-.
  rewrite map_Forall_lookup. intros k x Hk.
  apply lookup_kmap_inj_on in Hk as (t & -> & _); [by exists t|].
  by intros ???? [= ->].
Qed.

Lemma save_then_load_text_keyed_witness :
  ∃ e' m,
    runM (save_then_load Sample.world "interface.state"
            (json.load Sample.document) 10 "eth0" 64) Sample.env = (e', Ok m)
    ∧ MetricsState.old (Metrics.state m) = Some (json.load Sample.document)
    ∧ MetricsState.new (Metrics.state m) = Some (json.load Sample.document).
Proof.
  destruct (save_then_load_returns Sample.world "interface.state"
              (json.load Sample.document) 10 "eth0" 64 Sample.env
              eq_refl eq_refl) as (e' & m & Hrun).
  exists e', m. split; [exact Hrun|].
  apply (proj1 (save_then_load_text_keyed Sample.world "interface.state"
                  (json.load Sample.document) 10 "eth0" 64 Sample.env e' m
                  ltac:(discriminate) eq_refl
                  (load_text_keyed Sample.document) Hrun)).
  intros H. apply (f_equal (λ s : Snapshot, s !! "eth0")) in H.
  vm_compute in H. discriminate.
Defined.

(** C2, as the specification has it, fails: the empty snapshot is read back
    as absent, and the snapshot of a host, whose address families are
    integers, is read back with the numerals of these as keys. *)
Lemma save_then_load_differs :
  (∃ e' m,
     runM (save_then_load Sample.world "interface.state" ∅ 10 "eth0" 64)
       Sample.env = (e', Ok m)
     ∧ MetricsState.new (Metrics.state m) = None)
  ∧ (∃ e' m loaded,
       runM (save_then_load Sample.world "interface.state" Sample.snapshot
               10 "eth0" 64) Sample.env = (e', Ok m)
       ∧ MetricsState.new (Metrics.state m) = Some loaded
       ∧ Sample.snapshot !! "eth0"
         = Some {[ KInt 10 := [Sample.entry "2001:db8::1"] ]}
       ∧ loaded !! "eth0"
         = Some {[ KStr "10" := [Sample.entry "2001:db8::1"] ]}
       ∧ loaded ≠ Sample.snapshot).
Proof.
  split.
  - destruct (save_then_load_returns Sample.world "interface.state" ∅ 10
                "eth0" 64 Sample.env eq_refl eq_refl) as (e' & m & Hrun).
    exists e', m. split; [exact Hrun|].
    by rewrite (save_then_load_state Sample.world "interface.state" ∅ 10
                  "eth0" 64 Sample.env e' m ltac:(discriminate) eq_refl Hrun).
  - destruct (save_then_load_returns Sample.world "interface.state"
                Sample.snapshot 10 "eth0" 64 Sample.env eq_refl eq_refl)
      as (e' & m & Hrun).
    exists e', m, (json.load (json.dump Sample.snapshot)).
    split; [exact Hrun|].
    rewrite (save_then_load_state Sample.world "interface.state"
               Sample.snapshot 10 "eth0" 64 Sample.env e' m
               ltac:(discriminate) eq_refl Hrun).
    split.
    { rewrite decide_False; [done|]. intros H.
      apply (f_equal (λ s : Snapshot, s !! "eth0")) in H.
      vm_compute in H. discriminate. }
    split; [reflexivity|]. split; [vm_compute; reflexivity|].
    intros H.
    apply (f_equal (λ s : Snapshot, s !! "eth0" ≫= (.!! KInt 10))) in H.
    vm_compute in H. discriminate.
Qed.

(** What the second failure costs: the baseline read back after a restart
    has no entry under the integer key of IPv6, so [get] finds no value in
    it although the saved snapshot had one. *)
Example restart_loses_baseline :
  ipv6_prefix.get "eth0" 64 (Some Sample.snapshot)
  = Ok (Some (netaddr.mkIPAddress 6 0x20010db8000000000000000000000000))
  ∧ ipv6_prefix.get "eth0" 64 (Some (json.load (json.dump Sample.snapshot)))
    = Ok None.
Proof. split; vm_compute; reflexivity. Qed.

(** ** The refresh loop *)

Lemma elem_of_where_timers (P : threading.Timer → bool) (p : Process) (t : nat) :
  t ∈ where_timers P p ↔ ∃ tm, timers p !! t = Some tm ∧ P tm = true.
Proof.
  unfold where_timers. rewrite list_elem_of_fmap. split.
  - intros ([t' tm] & -> & Hin). apply list_elem_of_filter in Hin as [HP Hin].
    apply elem_of_lookup_imap in Hin as (i & x & Heq & Hl).
    injection Heq as -> ->. by exists x.
  - intros (tm & Hl & HP). exists (t, tm). split; [done|].
    apply list_elem_of_filter. split; [done|].
    apply elem_of_lookup_imap. by exists t, tm.
Qed.

Lemma where_timers_nil (P : threading.Timer → bool) (p : Process) :
  where_timers P p = [] ↔ ∀ t tm, timers p !! t = Some tm → P tm = false.
Proof.
  split.
  - intros Hnil t tm Hl. destruct (P tm) eqn:HP; [|done].
    assert (Hin : t ∈ where_timers P p) by (apply elem_of_where_timers; eauto).
    rewrite Hnil in Hin. by apply elem_of_nil in Hin.
  - intros Hall. destruct (where_timers P p) as [|t l] eqn:Hw; [done|].
    assert (Hin : t ∈ where_timers P p) by (rewrite Hw; left).
    apply elem_of_where_timers in Hin as (tm & Hl & HP).
    rewrite (Hall _ _ Hl) in HP. done.
Qed.

Lemma quiet_spec (p : Process) : quiet p ↔ running p = [] ∧ scheduled p = [].
Proof.
  unfold running, scheduled. rewrite !where_timers_nil. split.
  - intros Hq. split; intros t tm Hl; destruct (Hq _ _ Hl) as [Hr Hw].
    + by rewrite bool_decide_eq_false_2.
    + destruct (decide (threading.phase tm = threading.Waiting)) as [Hp|Hp].
      * rewrite (Hw Hp). by rewrite andb_false_r.
      * by rewrite bool_decide_eq_false_2.
  - intros [Hr Hs] t tm Hl. split.
    + intros Hp. specialize (Hr _ _ Hl).
      by rewrite bool_decide_eq_true_2 in Hr.
    + intros Hp. specialize (Hs _ _ Hl).
      rewrite bool_decide_eq_true_2 in Hs by done.
      simpl in Hs. by apply negb_false_iff.
Qed.

Lemma exec_interrupt (p : Process) :
  exec interrupt p =
  mkProcess (metrics p)
    (mkEnv (gauges (penv p)) (files (penv p))
       (logged (penv p) ++ [InterruptingTimer]))
    (timer p) (alter threading.set_finished (timer p) (timers p)).
Proof. reflexivity. Qed.

Lemma cycles_interrupt (p : Process) : cycles (exec interrupt p) = cycles p.
Proof.
  rewrite exec_interrupt. unfold cycles. simpl.
  rewrite filter_app, length_app.
  change (filter _ [InterruptingTimer]) with (@nil LogMsg). simpl. lia.
Qed.

Lemma lookup_alter_timer (f : threading.Timer → threading.Timer)
    (ts : list threading.Timer) (t t' : nat) (tm : threading.Timer) :
  alter f t ts !! t' = Some tm →
  ∃ tm0, ts !! t' = Some tm0 ∧ tm = if decide (t = t') then f tm0 else tm0.
Proof.
  destruct (decide (t = t')) as [->|Hne].
  - rewrite list_lookup_alter_eq. destruct (ts !! t') as [tm0|]; [|done].
    intros [= <-]. by exists tm0.
  - rewrite list_lookup_alter_ne by done. intros Hl. by exists tm.
Qed.

(** Once no timer is live, none becomes live and no cycle begins. *)
Lemma step_quiet (ev : Event) (p p' : Process) :
  quiet p → step ev p = Some p' → quiet p' ∧ cycles p' = cycles p.
Proof.
  intros Hq. destruct ev as [|t|t w]; simpl.
  - intros [= <-]. split; [|apply cycles_interrupt].
    rewrite exec_interrupt. intros t tm Hl. simpl in Hl.
    apply lookup_alter_timer in Hl as (tm0 & Hl0 & ->).
    destruct (Hq _ _ Hl0) as [Hr Hw]. by case_decide.
  - unfold fire. destruct (timers p !! t) as [tm|] eqn:Hl; [|done]. simpl.
    case_decide as Hph; [|done]. intros [= <-].
    destruct (Hq _ _ Hl) as [_ Hf]. rewrite (Hf Hph). split; [|done].
    intros t' tm' Hl'. simpl in Hl'.
    apply lookup_alter_timer in Hl' as (tm0 & Hl0 & ->).
    destruct (Hq _ _ Hl0) as [Hr Hw]. by case_decide.
  - unfold return_. destruct (timers p !! t) as [tm|] eqn:Hl; [|done]. simpl.
    case_decide as Hph; [|done]. by destruct (Hq _ _ Hl) as [Hr _].
Qed.

Lemma run_quiet (evs : list Event) :
  ∀ p p', quiet p → run evs p = Some p' → quiet p' ∧ cycles p' = cycles p.
Proof.
  induction evs as [|ev evs IH]; intros p p' Hq; simpl.
  - by intros [= <-].
  - destruct (step ev p) as [p1|] eqn:Hs; [|done]. simpl. intros Hrun.
    destruct (step_quiet _ _ _ Hq Hs) as [Hq1 Hc1].
    destruct (IH _ _ Hq1 Hrun) as [Hq' Hc']. split; [done|congruence].
Qed.


Lemma runM_plog (msg : LogMsg) (p : Process) :
  runM (in_penv (log msg)) p =
  (mkProcess (metrics p)
     (mkEnv (gauges (penv p)) (files (penv p)) (logged (penv p) ++ [msg]))
     (timer p) (timers p), Ok ()).
Proof. reflexivity. Qed.

Lemma start_timer_run (p : Process) (m : Metrics.t) :
  metrics p = Some m →
  runM start_timer p =
  (mkProcess (Some m)
     (mkEnv (gauges (penv p)) (files (penv p)) (logged (penv p) ++ [StartingTimer]))
     (length (timers p))
     (timers p ++ [threading.mkTimer (Metrics.polling_interval m)
                     threading.Refresh false threading.Waiting]),
   Ok ()).
Proof.
  intros Hm. unfold start_timer. rewrite runM_bind, runM_gets, Hm.
  rewrite runM_bind, runM_bind, runM_plog. cbv beta iota.
  rewrite runM_modify. cbv beta iota.
  rewrite runM_bind, runM_gets. cbn [timer timers metrics penv].
  unfold start. rewrite runM_bind, runM_gets. cbn [timers].
  rewrite list_lookup_middle by done.
  cbn [fmap option_fmap option_map threading.phase].
  unfold update_timer. rewrite runM_modify. cbn [timer timers metrics penv].
  rewrite alter_app_r_alt by done. rewrite Nat.sub_diag. by rewrite Hm.
Qed.
Lemma metrics_refresh_run (m : Metrics.t) (w : netifaces.World) (p : Process) :
  runM (metrics_refresh m w) p =
  let '(h, r) := runM (Metrics.refresh w) (Metrics.mkHeap m (penv p)) in
  (mkProcess (Some (Metrics.self h)) (Metrics.env h) (timer p) (timers p), r).
Proof. reflexivity. Qed.

(** The function [refresh] of the module on a process with a metrics
    object: the cycle, then a new timer, created and started; nothing is
    scheduled when the cycle raises. *)
Lemma refresh_run (w : netifaces.World) (p : Process) (m : Metrics.t) :
  metrics p = Some m →
  runM (refresh w) p =
  let '(h, r) :=
    runM (Metrics.refresh w)
      (Metrics.mkHeap m
         (mkEnv (gauges (penv p)) (files (penv p))
            (logged (penv p) ++ [RefreshingMetrics]))) in
  match r with
  | Ok _ =>
      (mkProcess (Some (Metrics.self h))
         (mkEnv (gauges (Metrics.env h)) (files (Metrics.env h))
            (logged (Metrics.env h) ++ [StartingTimer]))
         (length (timers p))
         (timers p ++ [threading.mkTimer (Metrics.polling_interval (Metrics.self h))
                         threading.Refresh false threading.Waiting]),
       Ok ())
  | Raise e =>
      (mkProcess (Some (Metrics.self h)) (Metrics.env h) (timer p) (timers p),
       Raise e)
  end.
Proof.
  intros Hm. unfold refresh. rewrite runM_bind, runM_gets, Hm.
  rewrite runM_bind, runM_bind, runM_plog. cbv beta iota.
  rewrite metrics_refresh_run. cbn [penv timer timers].
  destruct (runM (Metrics.refresh w) _) as [h [[]|e]]; [|reflexivity].
  by rewrite (start_timer_run _ (Metrics.self h)).
Qed.
(** The end of a call of [refresh] by timer [t]. *)
Lemma return_refresh (t : nat) (w : netifaces.World) (p : Process)
    (tm : threading.Timer) (m : Metrics.t) :
  timers p !! t = Some tm →
  threading.phase tm = threading.Running →
  threading.function tm = threading.Refresh →
  metrics p = Some m →
  return_ t w p =
  Some (let '(p1, r) := runM (refresh w) p in
        mkProcess (metrics p1) (penv p1) (timer p1)
          (alter (threading.set_phase threading.Done) t
             (match r with
              | Ok _ => alter threading.set_finished t (timers p1)
              | Raise _ => timers p1
              end))).
Proof.
  intros Hl Hph Hf Hm. unfold return_. rewrite Hl. cbn [mbind option_bind].
  rewrite decide_True by done. rewrite Hf. f_equal.
  unfold exec. rewrite runM_bind.
  destruct (runM (refresh w) p) as [p1 [[]|e]]; reflexivity.
Qed.

Lemma step_one_live_timer (ev : Event) (p p' : Process) :
  one_live_timer p → step ev p = Some p' → one_live_timer p'.
Proof.
  intros [[m Hm] Hone]. destruct ev as [|t|t w]; simpl.
  - intros [= <-]. rewrite exec_interrupt. split; [by exists m|].
    intros t tm Hl. cbn [timers timer] in *.
    apply lookup_alter_timer in Hl as (tm0 & Hl0 & ->).
    destruct (Hone _ _ Hl0) as [Ho Hf]. by case_decide.
  - unfold fire. destruct (timers p !! t) as [tm|] eqn:Hl; [|done].
    cbn [mbind option_bind]. case_decide as Hph; [|done]. intros [= <-].
    split; [by exists m|]. intros t' tm' Hl'.
    change (alter (threading.set_phase
                     (if threading.finished tm then threading.Done
                      else threading.Running)) t (timers p) !! t' = Some tm')
      in Hl'.
    change (timer (exec _ p)) with (timer p).
    apply lookup_alter_timer in Hl' as (tm0 & Hl0 & ->).
    destruct (Hone _ _ Hl0) as [Ho Hf]. case_decide as Ht; [|done]. subst t'.
    assert (tm0 = tm) as -> by congruence. split.
    + intros Hne. destruct (Ho Hne) as [Hc|Hc]; by rewrite Hc in Hph.
    + intros _. apply Hf. by rewrite Hph.
  - destruct (timers p !! t) as [tm|] eqn:Hl; [|by unfold return_; rewrite Hl].
    destruct (decide (threading.phase tm = threading.Running)) as [Hph|Hph];
      [|by unfold return_; rewrite Hl; cbn; rewrite decide_False].
    destruct (Hone _ _ Hl) as [Ho Hf].
    assert (Ht : t = timer p).
    { destruct (decide (t = timer p)) as [|Hne]; [done|].
      destruct (Ho Hne) as [Hc|Hc]; by rewrite Hc in Hph. }
    rewrite (return_refresh t w p tm m Hl Hph (Hf ltac:(by rewrite Hph)) Hm).
    rewrite (refresh_run w p m Hm).
    destruct (runM (Metrics.refresh w) _) as [h [[]|e]]; intros [= <-].
    + split; [by eexists|]. cbn [timers timer]. intros t' tm' Hl'.
      apply lookup_alter_timer in Hl' as (tm1 & Hl1 & ->).
      apply lookup_alter_timer in Hl1 as (tm0 & Hl0 & ->).
      destruct (decide (t' = length (timers p))) as [->|Hnl].
      * rewrite list_lookup_middle in Hl0 by done. injection Hl0 as <-.
        apply lookup_lt_Some in Hl. rewrite !decide_False by lia. done.
      * assert (Hlt : (t' < length (timers p))%nat).
        { apply lookup_lt_Some in Hl0. rewrite length_app in Hl0. simpl in Hl0. lia. }
        rewrite lookup_app_l in Hl0 by done.
        destruct (Hone _ _ Hl0) as [Ho0 Hf0].
        case_decide as Htt; simpl.
        -- split; [by right|]. intros _. subst t'.
           assert (tm0 = tm) as -> by congruence. apply Hf. by rewrite Hph.
        -- split; [|done]. intros _. apply Ho0. congruence.
    + split; [by eexists|]. cbn [timers timer]. intros t' tm' Hl'.
      apply lookup_alter_timer in Hl' as (tm0 & Hl0 & ->).
      destruct (Hone _ _ Hl0) as [Ho0 Hf0].
      case_decide as Htt; simpl; [|done].
      split; [by right|]. intros _. subst t'.
      assert (tm0 = tm) as -> by congruence. apply Hf. by rewrite Hph.
Qed.
Lemma runM_in_penv {A} (c : M Env A) (p : Process) :
  runM (in_penv c) p =
  let '(e, r) := runM c (penv p) in
  (mkProcess (metrics p) e (timer p) (timers p), r).
Proof. reflexivity. Qed.

(** What [main] leaves when it returns: the object built, the placeholder
    timer untouched and the first timer of the loop waiting. *)
Lemma main_run (polling_interval : Z) (interface : string) (prefix_length : Z)
    (file : string) (e : Env) (p0 : Process) :
  interface ≠ "" →
  runM (main polling_interval interface prefix_length file) (boot e)
  = (p0, Ok ()) →
  ∃ m,
    metrics p0 = Some m
    ∧ timer p0 = 1%nat
    ∧ timers p0 =
      [threading.mkTimer 0 threading.Lambda false threading.Created;
       threading.mkTimer (Metrics.polling_interval m) threading.Refresh false
         threading.Waiting].
Proof.
  intros Hi. unfold main. rewrite decide_True by done.
  rewrite runM_bind, runM_in_penv. cbn [penv boot].
  destruct (runM (Metrics.init _ _ _ _) e) as [e1 [m|x]]; [|done].
  cbn [metrics timer timers]. rewrite runM_bind, runM_modify.
  unfold start_refresh_loop. rewrite runM_bind, runM_plog.
  rewrite (start_timer_run _ m) by done. cbn [metrics penv timer timers].
  intros [= <-]. by exists m.
Qed.

Lemma main_one_live_timer (polling_interval : Z) (interface : string)
    (prefix_length : Z) (file : string) (e : Env) (p0 : Process) :
  interface ≠ "" →
  runM (main polling_interval interface prefix_length file) (boot e)
  = (p0, Ok ()) →
  one_live_timer p0.
Proof.
  intros Hi Hrun. destruct (main_run _ _ _ _ _ _ Hi Hrun) as (m & Hm & Ht & Hts).
  split; [by exists m|]. intros t tm Hl. rewrite Hts in Hl. rewrite Ht.
  destruct t as [|[|t]]; simpl in Hl; [| |done]; injection Hl as <-; simpl.
  - split; [by left|done].
  - done.
Qed.

Lemma run_one_live_timer (evs : list Event) :
  ∀ p p', one_live_timer p → run evs p = Some p' → one_live_timer p'.
Proof.
  induction evs as [|ev evs IH]; intros p p' Hone; simpl.
  - by intros [= <-].
  - destruct (step ev p) as [p1|] eqn:Hs; [|done]. simpl.
    apply IH. by eapply step_one_live_timer.
Qed.

Lemma reachable_one_live_timer (p : Process) : reachable p → one_live_timer p.
Proof.
  intros (pi & iface & pl & file & e & evs & p0 & Hi & Hmain & Hrun).
  eapply run_one_live_timer; [|done]. by eapply main_one_live_timer.
Qed.
Lemma where_timers_snoc (P : threading.Timer → bool) (m : option Metrics.t)
    (e : Env) (t : nat) (l : list threading.Timer) (x : threading.Timer) :
  (∀ i tm, l !! i = Some tm → P tm = false) →
  P x = true →
  where_timers P (mkProcess m e t (l ++ [x])) = [length l].
Proof.
  intros Hl Hx. unfold where_timers. cbn [timers].
  rewrite imap_app, filter_app, fmap_app.
  change (fst <$> filter (λ it, P it.2 = true) (imap pair l))
    with (where_timers P (mkProcess m e t l)).
  rewrite (proj2 (where_timers_nil P (mkProcess m e t l))) by done.
  simpl. rewrite filter_cons_True by done. simpl. f_equal. lia.
Qed.


Lemma main_sample_run :
  runM (main 10 "eth0" 64 "interface.state") (boot Sample.env)
  = (Sample.process, Ok ()).
Proof.
  unfold Sample.process, exec.
  destruct (runM (main 10 "eth0" 64 "interface.state") (boot Sample.env))
    as [p0 r] eqn:Hrun.
  assert (Hr : (runM (main 10 "eth0" 64 "interface.state") (boot Sample.env)).2
               = Ok ()) by (vm_compute; reflexivity).
  rewrite Hrun in Hr. simpl in *. by subst r.
Qed.



(** ** More on the extraction chain *)



(** Only the first entry of the IPv6 list counts: the entries after it
    change nothing, whatever they hold. *)
Theorem get_uses_first_entry_only (interface : string) (prefix_length : Z)
    (s : Snapshot) (r : AddressRecord) (first rest : list Entry) :
  s !! interface = Some r →
  r !! KInt netifaces.AF_INET6 = Some (first ++ rest) →
  length first = 1%nat →
  ipv6_prefix.get interface prefix_length (Some s)
  = ipv6_prefix.get interface prefix_length
      (Some (<[interface := <[KInt netifaces.AF_INET6 := first]> r]> s)).
Proof.
  intros Hs Hr Hlen. destruct first as [|fa [|]]; [done| |done]. simpl in Hr.
  rewrite !get_unfold, Hs, lookup_insert_eq, Hr, lookup_insert_eq.
  destruct (decide (r = ∅)) as [->|Hne]; [by rewrite lookup_empty in Hr|].
  rewrite decide_False; [done|]. intros H.
  apply (f_equal (.!! KInt netifaces.AF_INET6)) in H.
  by rewrite lookup_insert_eq, lookup_empty in H.
Qed.

Lemma get_uses_first_entry_only_witness :
  ipv6_prefix.get "eth0" 64
    (Some {[ "eth0" := {[ KInt 10 := [Sample.entry "2001:db8::1"]
                                      ++ [Sample.entry "not an address"] ]} ]})
  = ipv6_prefix.get "eth0" 64
      (Some (<["eth0" := <[KInt netifaces.AF_INET6 := [Sample.entry "2001:db8::1"]]>
                           {[ KInt 10 := [Sample.entry "2001:db8::1"]
                                         ++ [Sample.entry "not an address"] ]}]>
               {[ "eth0" := {[ KInt 10 := [Sample.entry "2001:db8::1"]
                                          ++ [Sample.entry "not an address"] ]} ]})).
Proof.
  apply (get_uses_first_entry_only "eth0" 64 _
           {[ KInt 10 := [Sample.entry "2001:db8::1"]
                         ++ [Sample.entry "not an address"] ]}
           [Sample.entry "2001:db8::1"] [Sample.entry "not an address"]);
    reflexivity.
Defined.

(** Present but falsy is absent too: an interface with an empty record and
    a first entry whose address is the empty text give no value. *)
Theorem get_falsy_is_absent (interface : string) (prefix_length : Z)
    (s : Snapshot) :
  s !! interface = Some ∅
  ∨ (∃ r fa rest, s !! interface = Some r
       ∧ r !! KInt netifaces.AF_INET6 = Some (fa :: rest)
       ∧ fa !! "addr" = Some "") →
  ipv6_prefix.get interface prefix_length (Some s) = Ok None.
Proof.
  rewrite get_unfold. intros [->|(r & fa & rest & -> & Hr & Ha)]; [done|].
  destruct (decide (r = ∅)); [done|]. by rewrite Hr, Ha.
Qed.

Lemma get_falsy_is_absent_witness :
  ipv6_prefix.get "eth0" 64
    (Some {[ "eth0" := {[ KInt 10 := [Sample.entry ""] ]} ]}) = Ok None.
Proof.
  apply get_falsy_is_absent. right.
  exists {[ KInt 10 := [Sample.entry ""] ]}, (Sample.entry ""), [].
  repeat split; reflexivity.
Defined.

(** No snapshot read from a state file has a value for [get]: the keys of
    its records are texts, and [get] looks the IPv6 list up under the
    integer of the address family. *)
Theorem loaded_baseline_has_no_value (interface : string) (prefix_length : Z)
    (doc : JsonSnapshot) :
  ipv6_prefix.get interface prefix_length (Some (json.load doc)) = Ok None.
Proof.
  rewrite get_unfold.
  destruct (json.load doc !! interface) as [r|] eqn:Hs; [|done].
  destruct (decide (r = ∅)); [done|].
  destruct (r !! KInt netifaces.AF_INET6) as [l|] eqn:Hr; [|done].
  pose proof (load_text_keyed doc) as Hkeys.
  destruct (Hkeys _ _ Hs _ _ Hr) as [t Ht]. done.
Qed.

(** ** More on one refresh cycle *)

(** The constructor builds an object with the differ of the IPv6 prefix
    and with the arguments it was given. *)
Lemma init_built (polling_interval : Z) (interface : string)
    (prefix_length : Z) (file_path : string) (e e' : Env) (m : Metrics.t) :
  runM (Metrics.init polling_interval interface prefix_length file_path) e
  = (e', Ok m) →
  built m
  ∧ Metrics.polling_interval m = polling_interval
  ∧ Metrics.interface m = interface
  ∧ Metrics.prefix_length m = prefix_length
  ∧ Metrics.file_path m = file_path.
Proof.
  unfold Metrics.init. rewrite runM_bind.
  unfold ipv6_prefix.init. rewrite runM_bind.
  unfold ChangeGaugeDiffer.init. rewrite runM_bind.
  unfold ChangeGaugeDiffer.Gauge. rewrite runM_bind, runM_gets.
  destruct (gauges e !! _); [done|].
  rewrite runM_modify, runM_ret, runM_ret.
  destruct (decide (file_path ≠ "")); [|by rewrite runM_ret; intros [= _ <-]].
  rewrite runM_bind. unfold log at 1. rewrite runM_modify.
  rewrite runM_bind, runM_gets. cbn [files].
  destruct (files e !! file_path) as [[|doc]|].
  - rewrite runM_bind. unfold log. rewrite runM_modify, runM_ret.
    by intros [= _ <-].
  - destruct (decide (json.load doc ≠ ∅)); rewrite runM_ret; by intros [= _ <-].
  - rewrite runM_bind. unfold log. rewrite runM_modify, runM_ret.
    by intros [= _ <-].
Qed.


(** The snapshot that the comprehension of [refresh] builds: its keys are
    the names the host reports, and each is mapped to the record that the
    host gives for the configured interface. *)
Theorem captured_lookup (configured : string) (w : netifaces.World)
    (names : list string) (snap : Snapshot) (name : string) :
  netifaces.interfaces w = Ok names →
  Metrics.captured configured w = Ok snap →
  (name ∈ names →
     ∃ r, netifaces.ifaddresses w configured = Ok r ∧ snap !! name = Some r)
  ∧ (name ∉ names → snap !! name = None).
Proof.
  intros Hn Hc. unfold Metrics.captured in Hc. rewrite Hn in Hc. simpl in Hc.
  split.
  - intros Hin. by eapply dict_comprehension_const.
  - intros Hnin.
    assert (Hgen : ∀ acc, acc !! name = None →
              Metrics.dict_comprehension
                (λ _, netifaces.ifaddresses w configured) names acc = Ok snap →
              snap !! name = None); [|by apply (Hgen ∅)].
    clear Hn Hc. induction names as [|n names IH]; intros acc Hacc; simpl.
    + by intros [= <-].
    + destruct (netifaces.ifaddresses w configured) as [v|]; [|done]. simpl.
      apply not_elem_of_cons in Hnin as [Hne Hnin].
      apply IH; [done|]. by rewrite lookup_insert_ne.
Qed.

Lemma captured_lookup_witness :
  (("lo" : string) ∈ ["lo"; "eth0"] →
     ∃ r, netifaces.ifaddresses Sample.world "eth0" = Ok r
          ∧ ({[ "lo" := Sample.eth0_record; "eth0" := Sample.eth0_record ]}
               : Snapshot) !! "lo" = Some r)
  ∧ (("lo" : string) ∉ ["lo"; "eth0"] →
       ({[ "lo" := Sample.eth0_record; "eth0" := Sample.eth0_record ]}
          : Snapshot) !! "lo" = None).
Proof.
  apply (captured_lookup "eth0" Sample.world ["lo"; "eth0"]).
  - reflexivity.
  - vm_compute. reflexivity.
Defined.

(** When the host does not know the configured interface and reports any
    interface at all, the cycle raises what the query raises; the state of
    the object stays. When the host reports no interface, the query is not
    made and the snapshot is empty. *)
Theorem refresh_unknown_interface (w : netifaces.World) (h : Metrics.Heap)
    (e : exn) :
  netifaces.ifaddresses w (Metrics.interface (Metrics.self h)) = Raise e →
  (∀ name names, netifaces.interfaces w = Ok (name :: names) →
     (runM (Metrics.refresh w) h).2 = Raise e
     ∧ Metrics.self (runM (Metrics.refresh w) h).1 = Metrics.self h)
  ∧ (netifaces.interfaces w = Ok [] →
       Metrics.captured (Metrics.interface (Metrics.self h)) w = Ok ∅).
Proof.
  intros Hq. split.
  - intros name names Hn.
    assert (Hr : (runM (Metrics.refresh w) h).2 = Raise e).
    { step_refresh w h. rewrite Hn. rewrite runM_bind, runM_lift.
      simpl (Ok _ ≫= _). rewrite Hq. reflexivity. }
    split; [done|]. by eapply refresh_raise_keeps_state.
  - intros Hn. unfold Metrics.captured. by rewrite Hn.
Qed.

Lemma refresh_unknown_interface_witness :
  (∀ name names,
     netifaces.interfaces
       (netifaces.mkWorld (Ok ["lo"]) (λ _, Raise ValueError) Written)
     = Ok (name :: names) →
     (runM (Metrics.refresh
              (netifaces.mkWorld (Ok ["lo"]) (λ _, Raise ValueError) Written))
        Sample.heap).2 = Raise ValueError
     ∧ Metrics.self
         (runM (Metrics.refresh
                  (netifaces.mkWorld (Ok ["lo"]) (λ _, Raise ValueError) Written))
            Sample.heap).1 = Metrics.self Sample.heap)
  ∧ (netifaces.interfaces
       (netifaces.mkWorld (Ok ["lo"]) (λ _, Raise ValueError) Written) = Ok [] →
       Metrics.captured (Metrics.interface (Metrics.self Sample.heap))
         (netifaces.mkWorld (Ok ["lo"]) (λ _, Raise ValueError) Written) = Ok ∅).
Proof.
  apply (refresh_unknown_interface
           (netifaces.mkWorld (Ok ["lo"]) (λ _, Raise ValueError) Written)
           Sample.heap ValueError).
  reflexivity.
Defined.

Lemma runM_in_env {A} (c : M Env A) (h : Metrics.Heap) :
  runM (Metrics.in_env c) h =
  let '(e, r) := runM c (Metrics.env h) in (Metrics.mkHeap (Metrics.self h) e, r).
Proof. reflexivity. Qed.


(** A cycle of an object with the default differ, step by step: what it
    returns or raises and the memory it leaves. *)
Lemma refresh_built_run (w : netifaces.World) (h : Metrics.Heap) :
  built (Metrics.self h) →
  let m := Metrics.self h in
  let e := Metrics.env h in
  let get := ipv6_prefix.get (Metrics.interface m) (Metrics.prefix_length m) in
  let log1 := logged e ++ [RefreshingState] in
  let log2 := log1 ++ [RunningDiffer ipv6_prefix.name] in
  runM (Metrics.refresh w) h =
  match Metrics.captured (Metrics.interface m) w with
  | Raise x => (Metrics.mkHeap m (mkEnv (gauges e) (files e) log1), Raise x)
  | Ok snap =>
      match get (MetricsState.new (Metrics.state m)) with
      | Raise x => (Metrics.mkHeap m (mkEnv (gauges e) (files e) log2), Raise x)
      | Ok old =>
          match get (Some snap) with
          | Raise x =>
              (Metrics.mkHeap m (mkEnv (gauges e) (files e) log2), Raise x)
          | Ok new =>
              let signal := if decide (old = new) then 0 else 1 in
              let gs := <[gauge_name_of (Metrics.interface m)
                            (Metrics.prefix_length m) := signal]> (gauges e) in
              let log3 := log2 ++ [RanDiffer ipv6_prefix.name signal] in
              let installed :=
                Metrics.set_state
                  (MetricsState.mk (MetricsState.new (Metrics.state m))
                     (Some snap) {[ ipv6_prefix.name := signal ]}) m in
              if decide (Metrics.file_path m ≠ "") then
                match netifaces.write w with
                | Written =>
                    (Metrics.mkHeap installed
                       (mkEnv gs (<[Metrics.file_path m := Json (json.dump snap)]>
                                    (files e)) log3),
                     Ok ())
                | OpenRaises x =>
                    (Metrics.mkHeap m (mkEnv gs (files e) log3), Raise x)
                | DumpRaises x =>
                    (Metrics.mkHeap m
                       (mkEnv gs (<[Metrics.file_path m := Unparseable]>
                                    (files e)) log3),
                     Raise x)
                end
              else (Metrics.mkHeap installed (mkEnv gs (files e) log3), Ok ())
          end
      end
  end.
Proof.
  intros Hb. cbv zeta. step_refresh w h. unfold Metrics.captured.
  destruct (netifaces.interfaces w) as [names|x]; [|done].
  rewrite runM_bind, runM_lift. simpl (Ok names ≫= _).
  destruct (Metrics.dict_comprehension _ names ∅) as [snap|x]; [|done].
  rewrite runM_bind, Hb, for_each_cons, runM_bind.
  unfold Metrics.run_differ at 1. rewrite runM_bind, runM_log.
  cbn [Differ.name Differ.get Differ.diff ipv6_differ Differ.V].
  rewrite runM_bind, runM_lift.
  change (Metrics.self (logging _ (logging _ h))) with (Metrics.self h).
  destruct (ipv6_prefix.get _ _ (MetricsState.new _)) as [old|x]; [|done].
  rewrite runM_bind, runM_lift.
  destruct (ipv6_prefix.get _ _ (Some snap)) as [new|x]; [|done].
  rewrite runM_bind, runM_in_env, diff_run. cbv zeta beta iota.
  rewrite runM_bind, runM_log, runM_ret. cbn [for_each]. rewrite runM_ret.
  rewrite runM_bind.
  destruct (decide (Metrics.file_path (Metrics.self h) ≠ "")) as [Hp|Hp].
  - unfold Metrics.save. destruct (netifaces.write w) eqn:Hw.
    + rewrite runM_in_env, runM_modify. cbv beta iota. rewrite runM_modify.
      cbn. by rewrite insert_empty.
    + done.
    + rewrite runM_in_env, runM_bind, runM_modify. done.
  - rewrite runM_ret, runM_modify. cbn. by rewrite insert_empty.
Qed.

Lemma sample_heap_built :
  built (Metrics.self Sample.heap)
  ∧ Metrics.interface (Metrics.self Sample.heap) = "eth0"
  ∧ Metrics.prefix_length (Metrics.self Sample.heap) = 64
  ∧ Metrics.file_path (Metrics.self Sample.heap) = "interface.state".
Proof.
  destruct (init_returns 10 "eth0" 64 "interface.state" Sample.env eq_refl)
    as (e' & m & Hrun).
  unfold Sample.heap. rewrite Hrun. cbn [Metrics.self].
  destruct (init_built _ _ _ _ _ _ _ Hrun) as (? & ? & ? & ? & ?). done.
Qed.

Lemma run_pair {S A} (c : M S A) (s : S) (r : result A) :
  (runM c s).2 = r → runM c s = ((runM c s).1, r).
Proof. intros <-. by destruct (runM c s). Qed.

(** The diff map and the gauge after a cycle that returns: one entry, under
    the name of the differ, which is 1 exactly when the value extracted from
    the previous new snapshot differs from the one extracted from the
    captured snapshot; the gauge holds the same number. *)
Theorem refresh_diff_signal (w : netifaces.World) (h h' : Metrics.Heap) :
  built (Metrics.self h) →
  runM (Metrics.refresh w) h = (h', Ok ()) →
  let m := Metrics.self h in
  let get := ipv6_prefix.get (Metrics.interface m) (Metrics.prefix_length m) in
  ∃ snap old new signal,
    Metrics.captured (Metrics.interface m) w = Ok snap
    ∧ get (MetricsState.new (Metrics.state m)) = Ok old
    ∧ get (Some snap) = Ok new
    ∧ (signal = 1 ∧ old ≠ new ∨ signal = 0 ∧ old = new)
    ∧ MetricsState.diff (Metrics.state (Metrics.self h'))
      = {[ ipv6_prefix.name := signal ]}
    ∧ gauges (Metrics.env h')
      !! gauge_name_of (Metrics.interface m) (Metrics.prefix_length m)
      = Some signal.
Proof.
  intros Hb. cbv zeta. rewrite (refresh_built_run w h Hb). cbv zeta.
  destruct (Metrics.captured _ w) as [snap|x] eqn:Hc; [|done].
  destruct (ipv6_prefix.get _ _ (MetricsState.new _)) as [old|x] eqn:Ho; [|done].
  destruct (ipv6_prefix.get _ _ (Some snap)) as [new|x] eqn:Hn; [|done].
  assert (Hsig : (if decide (old = new) then 0 else 1) = 1 ∧ old ≠ new
                 ∨ (if decide (old = new) then 0 else 1) = 0 ∧ old = new)
    by (case_decide; [by right|by left]).
  destruct (decide (Metrics.file_path (Metrics.self h) ≠ "")).
  - destruct (netifaces.write w); [|done..]. intros [= <-].
    exists snap, old, new, (if decide (old = new) then 0 else 1).
    cbn. rewrite lookup_insert_eq. repeat split; done.
  - intros [= <-].
    exists snap, old, new, (if decide (old = new) then 0 else 1).
    cbn. rewrite lookup_insert_eq. repeat split; done.
Qed.

Lemma refresh_diff_signal_witness :
  ∃ snap old new signal,
    Metrics.captured (Metrics.interface (Metrics.self Sample.heap)) Sample.world
    = Ok snap
    ∧ ipv6_prefix.get (Metrics.interface (Metrics.self Sample.heap))
        (Metrics.prefix_length (Metrics.self Sample.heap))
        (MetricsState.new (Metrics.state (Metrics.self Sample.heap))) = Ok old
    ∧ ipv6_prefix.get (Metrics.interface (Metrics.self Sample.heap))
        (Metrics.prefix_length (Metrics.self Sample.heap)) (Some snap) = Ok new
    ∧ (signal = 1 ∧ old ≠ new ∨ signal = 0 ∧ old = new)
    ∧ MetricsState.diff (Metrics.state (Metrics.self
        (runM (Metrics.refresh Sample.world) Sample.heap).1))
      = {[ ipv6_prefix.name := signal ]}
    ∧ gauges (Metrics.env (runM (Metrics.refresh Sample.world) Sample.heap).1)
      !! gauge_name_of (Metrics.interface (Metrics.self Sample.heap))
           (Metrics.prefix_length (Metrics.self Sample.heap))
      = Some signal.
Proof.
  apply (refresh_diff_signal Sample.world Sample.heap
           (runM (Metrics.refresh Sample.world) Sample.heap).1
           (proj1 sample_heap_built)).
  apply run_pair. vm_compute. reflexivity.
Defined.

(** The state file after a cycle that returns holds the document of the new
    snapshot, whatever it held before, and no other file is touched; without
    a file path no file is touched at all. *)
Theorem refresh_persists_snapshot (w : netifaces.World) (h h' : Metrics.Heap) :
  built (Metrics.self h) →
  runM (Metrics.refresh w) h = (h', Ok ()) →
  let path := Metrics.file_path (Metrics.self h) in
  ∃ snap,
    MetricsState.new (Metrics.state (Metrics.self h')) = Some snap
    ∧ (path ≠ "" →
         files (Metrics.env h') !! path = Some (Json (json.dump snap))
         ∧ ∀ other, other ≠ path →
             files (Metrics.env h') !! other = files (Metrics.env h) !! other)
    ∧ (path = "" → files (Metrics.env h') = files (Metrics.env h)).
Proof.
  intros Hb. cbv zeta. rewrite (refresh_built_run w h Hb). cbv zeta.
  destruct (Metrics.captured _ w) as [snap|x] eqn:Hc; [|done].
  destruct (ipv6_prefix.get _ _ (MetricsState.new _)) as [old|x] eqn:Ho; [|done].
  destruct (ipv6_prefix.get _ _ (Some snap)) as [new|x] eqn:Hn; [|done].
  destruct (decide (Metrics.file_path (Metrics.self h) ≠ "")) as [Hp|Hp].
  - destruct (netifaces.write w); [|done..]. intros [= <-].
    exists snap. cbn. split; [done|]. split; [|done]. intros _.
    split; [apply lookup_insert_eq|]. intros other Hne.
    by rewrite lookup_insert_ne.
  - intros [= <-]. exists snap. cbn. split; [done|]. split; [done|]. done.
Qed.

Lemma refresh_persists_snapshot_witness :
  ∃ snap,
    MetricsState.new (Metrics.state (Metrics.self
      (runM (Metrics.refresh Sample.world) Sample.heap).1)) = Some snap
    ∧ (Metrics.file_path (Metrics.self Sample.heap) ≠ "" →
         files (Metrics.env (runM (Metrics.refresh Sample.world) Sample.heap).1)
         !! Metrics.file_path (Metrics.self Sample.heap)
         = Some (Json (json.dump snap))
         ∧ ∀ other, other ≠ Metrics.file_path (Metrics.self Sample.heap) →
             files (Metrics.env
                      (runM (Metrics.refresh Sample.world) Sample.heap).1)
             !! other
             = files (Metrics.env Sample.heap) !! other)
    ∧ (Metrics.file_path (Metrics.self Sample.heap) = "" →
         files (Metrics.env (runM (Metrics.refresh Sample.world) Sample.heap).1)
         = files (Metrics.env Sample.heap)).
Proof.
  apply (refresh_persists_snapshot Sample.world Sample.heap
           (runM (Metrics.refresh Sample.world) Sample.heap).1
           (proj1 sample_heap_built)).
  apply run_pair. vm_compute. reflexivity.
Defined.

(** ** Restarts and failed writes *)

(** A restart always reports a change: when a cycle has saved a snapshot in
    which the interface has a prefix, a new process that reads the state
    file and runs its first cycle on the very same host state sets the
    diff to 1, although nothing changed. *)
Theorem restart_reports_change (w : netifaces.World) (h h1 : Metrics.Heap)
    (v : netaddr.IPAddress) (gs : gmap string Z) (lg : list LogMsg)
    (e2 : Env) (m2 : Metrics.t) :
  let m := Metrics.self h in
  built m →
  Metrics.file_path m ≠ "" →
  runM (Metrics.refresh w) h = (h1, Ok ()) →
  ipv6_prefix.get (Metrics.interface m) (Metrics.prefix_length m)
    (MetricsState.new (Metrics.state (Metrics.self h1))) = Ok (Some v) →
  runM (Metrics.init (Metrics.polling_interval m) (Metrics.interface m)
          (Metrics.prefix_length m) (Metrics.file_path m))
    (mkEnv gs (files (Metrics.env h1)) lg) = (e2, Ok m2) →
  ∃ h2,
    runM (Metrics.refresh w) (Metrics.mkHeap m2 e2) = (h2, Ok ())
    ∧ MetricsState.new (Metrics.state (Metrics.self h2))
      = MetricsState.new (Metrics.state (Metrics.self h1))
    ∧ MetricsState.diff (Metrics.state (Metrics.self h2))
      = {[ ipv6_prefix.name := 1 ]}.
Proof.
  cbv zeta. intros Hb Hp. rewrite (refresh_built_run w h Hb). cbv zeta.
  destruct (Metrics.captured _ w) as [snap|x] eqn:Hc; [|done].
  destruct (ipv6_prefix.get _ _ (MetricsState.new _)) as [old|x] eqn:Ho; [|done].
  destruct (ipv6_prefix.get _ _ (Some snap)) as [new|x] eqn:Hn; [|done].
  rewrite decide_True by done.
  destruct (netifaces.write w) eqn:Hw; [|done..]. intros [= <-].
  cbn [Metrics.self Metrics.env Metrics.set_state Metrics.state
       MetricsState.new files]. rewrite Hn. intros [= ->] Hinit.
  destruct (init_built _ _ _ _ _ _ _ Hinit) as (Hb2 & _ & Hi2 & Hl2 & Hp2).
  pose proof (init_state _ _ _ _ _ _ _ Hinit) as Hst.
  rewrite decide_False in Hst by done. cbn [files] in Hst.
  rewrite lookup_insert_eq in Hst.
  assert (Hne : json.dump snap ≠ ∅).
  { intros Hempty. apply fmap_empty_iff in Hempty as ->.
    by rewrite get_unfold, lookup_empty in Hn. }
  rewrite decide_False in Hst by done.
  rewrite (refresh_built_run w (Metrics.mkHeap m2 e2) Hb2). cbv zeta.
  cbn [Metrics.self Metrics.env]. rewrite Hi2, Hl2, Hp2, Hc, Hst.
  cbn [MetricsState.new]. rewrite loaded_baseline_has_no_value, Hn.
  rewrite decide_True by done. rewrite Hw. rewrite decide_False by done.
  eexists. split; [reflexivity|]. by cbn.
Qed.

Lemma restart_reports_change_witness :
  let h1 := (runM (Metrics.refresh Sample.world) Sample.heap).1 in
  let r := Sample.restarted
             (Json (json.dump {[ "lo" := Sample.eth0_record;
                                 "eth0" := Sample.eth0_record ]})) in
  ∃ h2 m2,
    r.2 = Ok m2
    ∧ runM (Metrics.refresh Sample.world) (Metrics.mkHeap m2 r.1) = (h2, Ok ())
    ∧ MetricsState.new (Metrics.state (Metrics.self h2))
      = MetricsState.new (Metrics.state (Metrics.self h1))
    ∧ MetricsState.diff (Metrics.state (Metrics.self h2))
      = {[ ipv6_prefix.name := 1 ]}.
Proof.
  cbv zeta.
  destruct sample_heap_built as (Hb & Hi & Hl & Hp).
  assert (Hrun : runM (Metrics.refresh Sample.world) Sample.heap
                 = ((runM (Metrics.refresh Sample.world) Sample.heap).1, Ok ()))
    by (apply run_pair; vm_compute; reflexivity).
  assert (Hfiles : files (Metrics.env
                     (runM (Metrics.refresh Sample.world) Sample.heap).1)
                   = files (Sample.env_with
                       (Json (json.dump {[ "lo" := Sample.eth0_record;
                                           "eth0" := Sample.eth0_record ]}))))
    by (vm_compute; reflexivity).
  destruct (init_returns 10 "eth0" 64 "interface.state"
              (Sample.env_with
                 (Json (json.dump {[ "lo" := Sample.eth0_record;
                                     "eth0" := Sample.eth0_record ]}))) eq_refl)
    as (e2 & m2 & Hinit).
  unfold Sample.restarted. rewrite Hinit. cbn [fst snd].
  destruct (restart_reports_change Sample.world Sample.heap _
              (netaddr.mkIPAddress 6 0x20010db8000000000000000000000000)
              ∅ [] e2 m2 Hb
              ltac:(rewrite Hp; discriminate) Hrun
              ltac:(vm_compute; reflexivity)) as (h2 & H2).
  - rewrite Hi, Hl, Hp, Hfiles.
    destruct sample_heap_built as (_ & _ & _ & _).
    replace (Metrics.polling_interval (Metrics.self Sample.heap)) with 10;
      [exact Hinit|].
    destruct (init_returns 10 "eth0" 64 "interface.state" Sample.env eq_refl)
      as (e0 & m0 & H0).
    unfold Sample.heap. rewrite H0. cbn [Metrics.self].
    by destruct (init_built _ _ _ _ _ _ _ H0) as (_ & -> & _).
  - exists h2, m2. by split.
Defined.

(** A cycle that fails at the write has run its differ already: the gauge
    holds the signal of the aborted cycle while the diff map of the object
    is the one of the cycle before. A refused open leaves the state file as
    it was; a failed dump leaves it without a readable document. *)
Theorem failed_write_sets_gauge_only (w : netifaces.World) (h : Metrics.Heap)
    (snap : Snapshot) (old new : option netaddr.IPAddress) (x : exn) :
  let m := Metrics.self h in
  let h' := (runM (Metrics.refresh w) h).1 in
  built m →
  Metrics.file_path m ≠ "" →
  Metrics.captured (Metrics.interface m) w = Ok snap →
  ipv6_prefix.get (Metrics.interface m) (Metrics.prefix_length m)
    (MetricsState.new (Metrics.state m)) = Ok old →
  ipv6_prefix.get (Metrics.interface m) (Metrics.prefix_length m) (Some snap)
  = Ok new →
  netifaces.write w = OpenRaises x ∨ netifaces.write w = DumpRaises x →
  (runM (Metrics.refresh w) h).2 = Raise x
  ∧ Metrics.self h' = m
  ∧ gauges (Metrics.env h')
    !! gauge_name_of (Metrics.interface m) (Metrics.prefix_length m)
    = Some (if decide (old = new) then 0 else 1)
  ∧ (netifaces.write w = OpenRaises x →
       files (Metrics.env h') = files (Metrics.env h))
  ∧ (netifaces.write w = DumpRaises x →
       files (Metrics.env h') !! Metrics.file_path m = Some Unparseable).
Proof.
  cbv zeta. intros Hb Hp Hc Ho Hn Hw.
  rewrite (refresh_built_run w h Hb). cbv zeta. rewrite Hc, Ho, Hn.
  rewrite decide_True by done.
  destruct Hw as [Hw|Hw]; rewrite Hw; cbn; rewrite lookup_insert_eq;
    repeat split; try done.
  intros _. apply lookup_insert_eq.
Qed.

Lemma failed_write_sets_gauge_only_witness :
  (runM (Metrics.refresh Sample.world_open_refused) Sample.heap).2
  = Raise OSError
  ∧ Metrics.self (runM (Metrics.refresh Sample.world_open_refused) Sample.heap).1
    = Metrics.self Sample.heap
  ∧ gauges (Metrics.env
              (runM (Metrics.refresh Sample.world_open_refused) Sample.heap).1)
    !! gauge_name_of (Metrics.interface (Metrics.self Sample.heap))
         (Metrics.prefix_length (Metrics.self Sample.heap))
    = Some (if decide (None
                       = Some (netaddr.mkIPAddress 6
                                 0x20010db8000000000000000000000000))
            then 0 else 1)
  ∧ (netifaces.write Sample.world_open_refused = OpenRaises OSError →
       files (Metrics.env
                (runM (Metrics.refresh Sample.world_open_refused) Sample.heap).1)
       = files (Metrics.env Sample.heap))
  ∧ (netifaces.write Sample.world_open_refused = DumpRaises OSError →
       files (Metrics.env
                (runM (Metrics.refresh Sample.world_open_refused) Sample.heap).1)
       !! Metrics.file_path (Metrics.self Sample.heap) = Some Unparseable).
Proof.
  destruct sample_heap_built as (Hb & Hi & Hl & Hp).
  apply (failed_write_sets_gauge_only Sample.world_open_refused Sample.heap
           {[ "lo" := Sample.eth0_record; "eth0" := Sample.eth0_record ]}
           None (Some (netaddr.mkIPAddress 6 0x20010db8000000000000000000000000))
           OSError Hb).
  - rewrite Hp. discriminate.
  - rewrite Hi. vm_compute. reflexivity.
  - vm_compute. reflexivity.
  - rewrite Hi, Hl. vm_compute. reflexivity.
  - left. reflexivity.
Defined.

(** ** More on the refresh loop *)

(** In a process that [main] started, a timer whose function is being
    called is the one the global [timer] refers to. *)
Lemma running_is_current (p : Process) (t : nat) :
  one_live_timer p → t ∈ running p →
  t = timer p
  ∧ ∃ tm m, timers p !! t = Some tm
            ∧ threading.phase tm = threading.Running
            ∧ threading.function tm = threading.Refresh
            ∧ metrics p = Some m.
Proof.
  intros [[m Hm] Hone] Ht.
  apply elem_of_where_timers in Ht as (tm & Hl & Hph).
  apply bool_decide_eq_true in Hph. destruct (Hone _ _ Hl) as [Ho Hf].
  split.
  - destruct (decide (t = timer p)) as [|Hne]; [done|].
    destruct (Ho Hne) as [Hc|Hc]; by rewrite Hc in Hph.
  - exists tm, m. repeat split; try done. apply Hf. by rewrite Hph.
Qed.

(** An exception in a cycle ends the loop for good: the thread of the timer
    dies before [start_timer], no timer is left waiting, and no cycle ever
    begins again. *)
Theorem cycle_raise_ends_loop (p : Process) (t : nat) (w : netifaces.World)
    (e : exn) :
  reachable p →
  t ∈ running p →
  (runM (refresh w) p).2 = Raise e →
  ∃ p', run [Return t w] p = Some p'
        ∧ running p' = [] ∧ scheduled p' = []
        ∧ ∀ evs p'', run evs p' = Some p'' →
            cycles p'' = cycles p' ∧ running p'' = [] ∧ scheduled p'' = [].
Proof.
  intros Hreach Ht Hraise. simpl.
  pose proof (reachable_one_live_timer _ Hreach) as Hone.
  destruct (running_is_current _ _ Hone Ht)
    as (Htp & tm & m & Hl & Hph & Hf & Hm).
  rewrite (return_refresh t w p tm m Hl Hph Hf Hm).
  rewrite (refresh_run w p m Hm) in *.
  destruct (runM (Metrics.refresh w) _) as [h [[]|x]]; [done|].
  eexists. split; [reflexivity|].
  assert (Hq : quiet (mkProcess (Some (Metrics.self h)) (Metrics.env h) (timer p)
                        (alter (threading.set_phase threading.Done) t (timers p)))).
  { intros i tmi Hi. cbn [timers] in Hi.
    apply lookup_alter_timer in Hi as (tm0 & Hi & ->).
    case_decide as Hti; [done|].
    destruct Hone as [_ Hone]. destruct (Hone _ _ Hi) as [Ho _].
    destruct (Ho ltac:(congruence)) as [Hc|Hc];
      (split; [by rewrite Hc|intros Hw; by rewrite Hc in Hw]). }
  cbn [metrics penv timer timers].
  destruct (proj1 (quiet_spec _) Hq) as [Hr Hs].
  split; [exact Hr|]. split; [exact Hs|].
  intros evs p'' Hevs. destruct (run_quiet _ _ _ Hq Hevs) as [Hq' Hc].
  by destruct (proj1 (quiet_spec _) Hq').
Qed.

Lemma sample_reachable (evs : list Event) (p : Process) :
  run evs Sample.process = Some p → reachable p.
Proof.
  intros Hrun.
  exists 10, "eth0", 64, "interface.state", Sample.env, evs, Sample.process.
  split; [discriminate|]. split; [exact main_sample_run|done].
Qed.

Lemma run_snoc (evs : list Event) (ev : Event) (p : Process) :
  run (evs ++ [ev]) p = run evs p ≫= step ev.
Proof.
  revert p. induction evs as [|ev0 evs IH]; intros p; simpl.
  - by destruct (step ev p).
  - destruct (step ev0 p); simpl; [apply IH|done].
Qed.

Lemma sample_firing : run [Fire 1%nat] Sample.process = Some Sample.firing.
Proof.
  destruct (main_run 10 "eth0" 64 "interface.state" Sample.env Sample.process
              ltac:(discriminate) main_sample_run)
    as (m & Hm & Ht & Hts).
  unfold run, step, fire. rewrite Hts. reflexivity.
Qed.

Lemma cycle_raise_ends_loop_witness :
  ∃ p', run [Return 1%nat Sample.world_no_listing] Sample.firing = Some p'
        ∧ running p' = [] ∧ scheduled p' = []
        ∧ ∀ evs p'', run evs p' = Some p'' →
            cycles p'' = cycles p' ∧ running p'' = [] ∧ scheduled p'' = [].
Proof.
  apply (cycle_raise_ends_loop Sample.firing 1 Sample.world_no_listing OSError).
  - exact (sample_reachable _ _ sample_firing).
  - replace (running Sample.firing) with [1%nat] by (vm_compute; reflexivity).
    by apply list_elem_of_singleton.
  - vm_compute. reflexivity.
Defined.



(** A cycle that completes schedules the next one, and only that: the
    function [refresh] ends with a new timer, waiting for the polling
    interval of the metrics object, to which the global [timer] refers. *)
Theorem completed_cycle_reschedules (p : Process) (t : nat)
    (w : netifaces.World) :
  reachable p →
  t ∈ running p →
  (runM (refresh w) p).2 = Ok () →
  ∃ p' tm m,
    run [Return t w] p = Some p'
    ∧ running p' = []
    ∧ scheduled p' = [timer p']
    ∧ timer p' = length (timers p)
    ∧ timers p' !! timer p' = Some tm
    ∧ metrics p' = Some m
    ∧ threading.interval tm = Metrics.polling_interval m
    ∧ threading.function tm = threading.Refresh.
Proof.
  intros Hreach Ht Hok. simpl.
  pose proof (reachable_one_live_timer _ Hreach) as Hone.
  destruct (running_is_current _ _ Hone Ht)
    as (Htp & tm & m & Hl & Hph & Hf & Hm).
  rewrite (return_refresh t w p tm m Hl Hph Hf Hm).
  rewrite (refresh_run w p m Hm) in *.
  destruct (runM (Metrics.refresh w) _) as [h [[]|x]]; [|done].
  eexists. eexists. eexists. split; [reflexivity|].
  cbn [metrics penv timer timers].
  assert (Hlt : (t < length (timers p))%nat) by (by apply lookup_lt_Some in Hl).
  rewrite !alter_app_l by (by rewrite ?length_alter).
  assert (Hrest : ∀ i tmi,
            alter (threading.set_phase threading.Done) t
              (alter threading.set_finished t (timers p)) !! i = Some tmi →
            threading.phase tmi = threading.Created
            ∨ threading.phase tmi = threading.Done).
  { intros i tmi Hi.
    apply lookup_alter_timer in Hi as (tm1 & Hi & ->).
    apply lookup_alter_timer in Hi as (tm0 & Hi & ->).
    destruct (decide (t = i)) as [<-|Hne]; [by right|].
    destruct Hone as [_ Hone]. destruct (Hone _ _ Hi) as [Hoi _].
    apply Hoi. congruence. }
  split; [|split; [|split; [|split; [|split]]]].
  - apply where_timers_nil. intros i tmi Hi. cbn [timers] in Hi.
    apply bool_decide_eq_false. intros Hrun.
    destruct (decide (i < length (timers p))%nat) as [Hi'|Hi'].
    + rewrite lookup_app_l in Hi by (by rewrite !length_alter).
      destruct (Hrest _ _ Hi) as [Hc|Hc]; by rewrite Hc in Hrun.
    + rewrite lookup_app_r in Hi by (rewrite !length_alter; lia).
      rewrite !length_alter in Hi.
      destruct (i - length (timers p))%nat; [|done].
      injection Hi as <-. done.
  - unfold scheduled. rewrite where_timers_snoc; [by rewrite !length_alter| |done].
    intros i tmi Hi. destruct (Hrest _ _ Hi) as [Hc|Hc]; by rewrite Hc.
  - reflexivity.
  - replace (length (timers p))
      with (length (alter (threading.set_phase threading.Done) t
                      (alter threading.set_finished t (timers p))))
      by (by rewrite !length_alter).
    apply list_lookup_middle. done.
  - reflexivity.
  - split; reflexivity.
Qed.

Lemma completed_cycle_reschedules_witness :
  ∃ p' tm m,
    run [Return 1%nat Sample.world] Sample.firing = Some p'
    ∧ running p' = []
    ∧ scheduled p' = [timer p']
    ∧ timer p' = length (timers Sample.firing)
    ∧ timers p' !! timer p' = Some tm
    ∧ metrics p' = Some m
    ∧ threading.interval tm = Metrics.polling_interval m
    ∧ threading.function tm = threading.Refresh.
Proof.
  apply (completed_cycle_reschedules Sample.firing 1 Sample.world).
  - exact (sample_reachable _ _ sample_firing).
  - replace (running Sample.firing) with [1%nat] by (vm_compute; reflexivity).
    by apply list_elem_of_singleton.
  - vm_compute. reflexivity.
Defined.

(** ** The read surface *)





Lemma dump_load_record (r : JsonRecord) :
  json.dump_record (json.load_record r) = r.
Proof.
  apply map_eq. intros k. apply option_eq. intros x.
  unfold json.dump_record, json.load_record.
  assert (Hinj : ∀ i i' : PyKey,
            is_Some (kmap (M1 := gmap string) (M2 := gmap PyKey) KStr r !! i) →
            is_Some (kmap (M1 := gmap string) (M2 := gmap PyKey) KStr r !! i') →
            json.key_text i = json.key_text i' → i = i').
  { intros i i' [y Hy] [y' Hy'].
    apply lookup_kmap_inj_on in Hy as (t & -> & _); [|by intros ???? [= ->]].
    apply lookup_kmap_inj_on in Hy' as (t' & -> & _); [|by intros ???? [= ->]].
    simpl. by intros ->. }
  rewrite lookup_kmap_inj_on by done. split.
  - intros (i & -> & Hi).
    apply lookup_kmap_inj_on in Hi as (t & -> & Ht); [done|].
    by intros ???? [= ->].
  - intros Hk. exists (KStr k). split; [done|].
    apply lookup_kmap_inj_on; [by intros ???? [= ->]|]. by exists k.
Qed.

(** Writing what was read gives the document again. *)
Lemma dump_load (d : JsonSnapshot) : json.dump (json.load d) = d.
Proof.
  unfold json.load, json.dump. rewrite <- map_fmap_compose.
  apply map_eq. intros i. rewrite lookup_fmap.
  destruct (d !! i) as [r|]; [|done]. simpl. f_equal. apply dump_load_record.
Qed.

(** What the routes serve before the first cycle has completed: /diff the
    empty object, and /interfaces the document of the state file when it is
    readable and not empty, and null otherwise (not an empty object). *)
Theorem served_at_start (polling_interval : Z) (interface : string)
    (prefix_length : Z) (file : string) (e : Env) (p0 : Process) :
  interface ≠ "" →
  runM (main polling_interval interface prefix_length file) (boot e)
  = (p0, Ok ()) →
  get_diff p0 = JsonDiffs ∅
  ∧ get_interfaces p0 =
    if decide (file = "") then JsonNull
    else match files e !! file with
         | Some (Json doc) =>
             if decide (doc = ∅) then JsonNull else JsonSnapshotDoc doc
         | _ => JsonNull
         end.
Proof.
  intros Hi. unfold main. rewrite decide_True by done.
  rewrite runM_bind, runM_in_penv. cbn [penv boot].
  destruct (runM (Metrics.init _ _ _ _) e) as [e1 [m|x]] eqn:Hinit; [|done].
  cbn [metrics timer timers]. rewrite runM_bind, runM_modify.
  unfold start_refresh_loop. rewrite runM_bind, runM_plog.
  rewrite (start_timer_run _ m) by done. intros [= <-].
  unfold get_diff, get_interfaces. cbn [metrics].
  rewrite (init_state _ _ _ _ _ _ _ Hinit).
  destruct (decide (file = "")); [done|].
  destruct (files e !! file) as [[|doc]|]; [done| |done].
  destruct (decide (doc = ∅)); [done|]. cbn. by rewrite dump_load.
Qed.

Lemma served_at_start_witness :
  get_diff Sample.process = JsonDiffs ∅
  ∧ get_interfaces Sample.process =
    if decide ("interface.state" = "") then JsonNull
    else match files Sample.env !! "interface.state" with
         | Some (Json doc) =>
             if decide (doc = ∅) then JsonNull else JsonSnapshotDoc doc
         | _ => JsonNull
         end.
Proof.
  apply (served_at_start 10 "eth0" 64 "interface.state" Sample.env Sample.process).
  - discriminate.
  - exact main_sample_run.
Defined.

(** ** The helpers *)

(** [ifirst] gives at most one item: the first one of the iterator that
    passes the predicate, and nothing when none passes. *)
Theorem ifirst_spec {A} (predicate : A → bool) (iterator : list A) :
  (ifirst predicate iterator = []
   ↔ ∀ x, x ∈ iterator → predicate x = false)
  ∧ (∀ x, ifirst predicate iterator = [x]
          ↔ ∃ before after,
              iterator = before ++ x :: after
              ∧ predicate x = true
              ∧ ∀ y, y ∈ before → predicate y = false)
  ∧ (length (ifirst predicate iterator) ≤ 1)%nat.
Proof.
  unfold ifirst. induction iterator as [|a l (IH1 & IH2 & IH3)]; simpl.
  - split; [|split; [|lia]].
    + split; [|done]. intros _ x Hx. by apply elem_of_nil in Hx.
    + intros x. split; [done|]. intros ([|? ?] & after & Heq & _); done.
  - destruct (predicate a) eqn:Ha; simpl.
    + split; [|split; [|lia]].
      * split; [done|]. intros H. specialize (H a (list_elem_of_here _ _)).
        congruence.
      * intros x. split.
        -- intros [= <-]. exists [], l. split; [done|]. split; [done|].
           intros y Hy. by apply elem_of_nil in Hy.
        -- intros ([|b before] & after & Heq & Hx & Hb).
           ++ by injection Heq as -> _.
           ++ injection Heq as -> _.
              specialize (Hb b (list_elem_of_here _ _)). congruence.
    + split; [|split; [|done]].
      * rewrite IH1. split.
        -- intros H x Hx. apply elem_of_cons in Hx as [->|Hx]; [done|by apply H].
        -- intros H x Hx. apply H. by right.
      * intros x. rewrite IH2. split.
        -- intros (before & after & -> & Hx & Hb).
           exists (a :: before), after. split; [done|]. split; [done|].
           intros y Hy. apply elem_of_cons in Hy as [->|Hy]; [done|by apply Hb].
        -- intros ([|b before] & after & Heq & Hx & Hb).
           ++ injection Heq as -> _. congruence.
           ++ injection Heq as -> ->. exists before, after.
              split; [done|]. split; [done|]. intros y Hy. apply Hb. by right.
Qed.

Lemma ifirst_spec_witness :
  ifirst (λ n : Z, 2 <? n) [1; 2; 3; 4] = [3].
Proof.
  apply (proj2 (proj1 (proj2 (ifirst_spec (λ n : Z, 2 <? n) [1; 2; 3; 4])) 3)).
  exists [1; 2], [4]. split; [reflexivity|]. split; [reflexivity|].
  intros y Hy. apply elem_of_cons in Hy as [->|Hy]; [reflexivity|].
  apply list_elem_of_singleton in Hy as ->. reflexivity.
Defined.
